(** * dbt-core: schema-YAML readers, the common-identifiers rule and the compile task

    A shallow embedding of

    - [core/dbt/parser/schema_yaml_readers.py]
      ([ExposureParser], [MetricParser], [GroupParser], [SemanticModelParser]),
    - [core/dbt/semantic/validations/common_identifiers.py]
      ([CommonIdentifiersRule]),
    - [core/dbt/task/compile.py] ([CompileTask]),

    together with the properties the specification states about them.

    Conventions.  A Python [str] is a [string]: one [ascii] per code point, so
    the strings covered are those whose code points lie below 256 (the Latin-1
    range).  A Python [int] is a [Z].  A [dict] is a [gmap], a [set] a [gset].
    A method that can raise returns an [outcome]; a method that mutates [self]
    or the manifest threads that state explicitly. *)

From Stdlib Require Import ZArith Ascii String List Lia.
From stdpp Require Import base option list gmap strings.

Open Scope Z_scope.
Open Scope stdpp_scope.

(** ** Python string primitives used by the sources *)

Module Py.

(** [s.split(sep)] for a one-character separator: every occurrence of the
    separator ends a field, so ["a  b"] has three fields and [""] has one. *)
Fixpoint split (sep : ascii) (s : string) : list string :=
  match s with
  | EmptyString => [EmptyString]
  | String c rest =>
      if Ascii.eqb c sep then EmptyString :: split sep rest
      else match split sep rest with
           | field :: fields => String c field :: fields
           | [] => [String c EmptyString]
           end
  end.

(** [s.endswith(c)] for a one-character suffix. *)
Fixpoint endswith (c : ascii) (s : string) : bool :=
  match s with
  | EmptyString => false
  | String a EmptyString => Ascii.eqb a c
  | String _ rest => endswith c rest
  end.

(** [s[:-1]] : everything but the last character. *)
Fixpoint drop_last (s : string) : string :=
  match s with
  | EmptyString => EmptyString
  | String _ EmptyString => EmptyString
  | String a rest => String a (drop_last rest)
  end.

(** The decimal digits [0] to [9] (Unicode category Nd below U+0100). *)
Definition is_decimal_char (c : ascii) : bool :=
  let n := nat_of_ascii c in (48 <=? n)%nat && (n <=? 57)%nat.

(** The characters on which [str.isdigit] answers [True]: those of numeric
    type Decimal or Digit.  Below U+0100 these are [0] to [9] and the
    superscripts U+00B2, U+00B3 and U+00B9. *)
Definition is_digit_char (c : ascii) : bool :=
  is_decimal_char c ||
  (let n := nat_of_ascii c in
   (n =? 178)%nat || (n =? 179)%nat || (n =? 185)%nat).

Fixpoint all_chars (p : ascii → bool) (s : string) : bool :=
  match s with
  | EmptyString => true
  | String c rest => p c && all_chars p rest
  end.

(** [s.isdigit()] : at least one character, all of them digits. *)
Definition isdigit (s : string) : bool :=
  match s with
  | EmptyString => false
  | _ => all_chars is_digit_char s
  end.

(** [s] is a non-empty run of the decimal digits [0] to [9]. *)
Definition isdecimal (s : string) : bool :=
  match s with
  | EmptyString => false
  | _ => all_chars is_decimal_char s
  end.

Definition digit_value (c : ascii) : Z := Z.of_nat (nat_of_ascii c) - 48.

Fixpoint int_acc (acc : Z) (s : string) : Z :=
  match s with
  | EmptyString => acc
  | String c rest => int_acc (10 * acc + digit_value c) rest
  end.

(** [int(s)] as the sources reach it, that is on a string for which
    [s.isdigit()] holds (no sign, blank or underscore can occur): the value
    of a run of decimal digits, and [None], standing for [ValueError], when
    a character is not a decimal digit.  Integers are unbounded; the
    interpreter's configurable cap on the length of a converted string is a
    resource limit and is left out. *)
Definition int (s : string) : option Z :=
  if isdecimal s then Some (int_acc 0 s) else None.

(** [x in xs] on a list of strings. *)
Definition contains (x : string) (xs : list string) : bool :=
  bool_decide (x ∈ xs).

End Py.

(** ** Enumerations looked up by value

    [TimeGranularity] comes from the [dbt_semantic_interfaces] package.  The
    sources use it through two operations only: iteration over its members
    ([item.value for item in TimeGranularity]) and construction from a value
    ([TimeGranularity(granularity)]).  The class below is that interface. *)

Class StrEnum (E : Type) := {
  enum_name : string;
  enum_items : list E;
  enum_value : E → string;
}.

(** [E(v)] : the first member whose value is [v]; [None] stands for the
    [ValueError] Python raises when there is none. *)
Definition enum_of_value `{StrEnum E} (v : string) : option E :=
  List.find (λ item, String.eqb (enum_value item) v) enum_items.

Definition enum_values `{StrEnum E} : list string :=
  enum_value <$> enum_items.

(** The members of [TimeGranularity] that the specification and the sources'
    own comments name ([day], and [month] in the comment [months -> month]),
    with the remaining calendar units of the package. *)
Inductive CalendarGranularity := DAY | WEEK | MONTH | QUARTER | YEAR.

#[export] Instance CalendarGranularity_enum : StrEnum CalendarGranularity := {|
  enum_name := "TimeGranularity";
  enum_items := [DAY; WEEK; MONTH; QUARTER; YEAR];
  enum_value g :=
    match g with
    | DAY => "day" | WEEK => "week" | MONTH => "month"
    | QUARTER => "quarter" | YEAR => "year"
    end;
|}.

(** ** Values shared by the three sources *)

(** A value of a YAML or config mapping ([Dict[str, Any]]). *)
Inductive Any :=
| VNone
| VBool (b : bool)
| VInt (n : Z)
| VStr (s : string)
| VList (l : list string).

Abbreviation Dict := (gmap string Any).

Record FilePath := {
  relative_path : string;
  original_file_path : string;
}.

(** [self.yaml.file] is a source-file object; the manifest files a disabled
    node under it, so its identity is all that is kept. *)
Record SourceFile := { file_id : string }.

Record YamlBlock := {
  path : FilePath;
  file : SourceFile;
}.

(** The exceptions the three sources raise or let through. *)
Inductive Exception :=
| YamlParseDictError (p : FilePath) (key : string) (yaml_data : Dict) (cause : string)
| DbtInternalError (msg : string)
| DbtException (msg : string)
| CompilationError (msg : string)
| ValueError (msg : string)
| KeyError (key : string).

Inductive outcome (A : Type) :=
| Return (a : A)
| Raise (e : Exception).
Arguments Return {A} a.
Arguments Raise {A} e.

Module NodeType.
Inductive t := Exposure | Metric | Group | SemanticModel | SqlOperation | Model.

(** [str(NodeType.X)], the first component of a unique id
    ([type.package.name]). *)
Definition str (n : t) : string :=
  match n with
  | Exposure => "exposure"
  | Metric => "metric"
  | Group => "group"
  | SemanticModel => "semantic_model"
  | SqlOperation => "sql_operation"
  | Model => "model"
  end.
End NodeType.

(** *** Config objects

    [calculate_node_config] and [finalize_and_validate] return Python objects;
    the readers test their class with [isinstance].  The classes that matter
    are told apart, any other class is kept by the text [type(config)]
    renders to. *)

Record ExposureConfig := {
  exposure_enabled : bool;
  exposure_extra : Dict;
}.

Record MetricConfig := {
  metric_enabled : bool;
  metric_group : option string;
  metric_extra : Dict;
}.

Inductive ConfigObj :=
| ExposureConfigObj (c : ExposureConfig)
| MetricConfigObj (c : MetricConfig)
| DictObj (d : Dict)
| OtherObj (type_repr : string).

(** [f"{type(config)}"]. *)
Definition type_repr_of (c : ConfigObj) : string :=
  match c with
  | ExposureConfigObj _ => "<class 'dbt.contracts.graph.model_config.ExposureConfig'>"
  | MetricConfigObj _ => "<class 'dbt.contracts.graph.model_config.MetricConfig'>"
  | DictObj _ => "<class 'dict'>"
  | OtherObj r => r
  end.

(** *** Unparsed declarations ([dbt.contracts.graph.unparsed]) *)

Module UnparsedExposure.
Record t := {
  name : string;
  type : string;
  url : option string;
  meta : Dict;
  tags : list string;
  description : string;
  label : option string;
  owner : Dict;
  maturity : option string;
  depends_on : list string;
  config : Dict;
}.
End UnparsedExposure.

Module UnparsedMetricInputMeasure.
Record t := {
  name : string;
  filter : option string;
  alias : option string;
}.
End UnparsedMetricInputMeasure.

Module UnparsedMetricInput.
Record t := {
  name : string;
  filter : option string;
  alias : option string;
  offset_window : option string;
  offset_to_grain : option string;
}.
End UnparsedMetricInput.

(** [Union[X, str]] *)
Inductive StrOr (X : Type) :=
| IsStr (s : string)
| IsObj (x : X).
Arguments IsStr {X} s.
Arguments IsObj {X} x.

Module UnparsedMetricTypeParams.
Record t := {
  measure : option (StrOr UnparsedMetricInputMeasure.t);
  measures : option (list (StrOr UnparsedMetricInputMeasure.t));
  numerator : option (StrOr UnparsedMetricInputMeasure.t);
  denominator : option (StrOr UnparsedMetricInputMeasure.t);
  expr : option string;
  window : option string;
  grain_to_date : option string;
  metrics : option (list (StrOr UnparsedMetricInput.t));
}.
End UnparsedMetricTypeParams.

Module UnparsedMetric.
Record t := {
  name : string;
  label : string;
  type : string;
  type_params : UnparsedMetricTypeParams.t;
  description : string;
  filter : option string;
  meta : Dict;
  tags : list string;
  config : Dict;
}.
End UnparsedMetric.

Module UnparsedGroup.
Record t := {
  name : string;
  owner : Dict;
}.
End UnparsedGroup.

Module UnparsedSemanticModel.
Record t := {
  name : string;
  description : option string;
  model : string;
  entities : list Dict;
  measures : list Dict;
  dimensions : list Dict;
}.
End UnparsedSemanticModel.

(** *** Graph nodes ([dbt.contracts.graph.nodes]) *)

Module WhereFilter.
Record t := { where_sql_template : string }.
End WhereFilter.

Module MetricInputMeasure.
Record t := {
  name : string;
  filter : option WhereFilter.t;
  alias : option string;
}.
End MetricInputMeasure.

Module MetricTimeWindow.
Record t {TG : Type} := {
  count : Z;
  granularity : TG;
}.
Arguments t : clear implicits.
End MetricTimeWindow.

Module MetricInput.
Record t {TG : Type} := {
  name : string;
  filter : option WhereFilter.t;
  alias : option string;
  offset_window : option (MetricTimeWindow.t TG);
  offset_to_grain : option TG;
}.
Arguments t : clear implicits.
End MetricInput.

Module MetricTypeParams.
Record t {TG : Type} := {
  measure : option MetricInputMeasure.t;
  measures : list MetricInputMeasure.t;
  numerator : option MetricInputMeasure.t;
  denominator : option MetricInputMeasure.t;
  expr : option string;
  window : option (MetricTimeWindow.t TG);
  grain_to_date : option TG;
  metrics : list (MetricInput.t TG);
}.
Arguments t : clear implicits.
End MetricTypeParams.

Module Exposure.
Record t := {
  resource_type : NodeType.t;
  package_name : string;
  path : string;
  original_file_path : string;
  unique_id : string;
  fqn : list string;
  name : string;
  type : string;
  url : option string;
  meta : Dict;
  tags : list string;
  description : string;
  label : option string;
  owner : Dict;
  maturity : option string;
  config : ExposureConfig;
  unrendered_config : ConfigObj;
  (* filled in by the renderer in capture mode *)
  refs : list string;
  sources : list string;
  metrics : list string;
}.
End Exposure.

Module Metric.
Record t {TG MT : Type} := {
  resource_type : NodeType.t;
  package_name : string;
  path : string;
  original_file_path : string;
  unique_id : string;
  fqn : list string;
  name : string;
  description : string;
  label : string;
  type : MT;
  type_params : MetricTypeParams.t TG;
  filter : option WhereFilter.t;
  meta : Dict;
  tags : list string;
  config : MetricConfig;
  unrendered_config : ConfigObj;
  group : option string;
}.
Arguments t : clear implicits.
End Metric.

Module Group.
Record t := {
  resource_type : NodeType.t;
  package_name : string;
  path : string;
  original_file_path : string;
  unique_id : string;
  name : string;
  owner : Dict;
}.
End Group.

Module SemanticModel.
Record t := {
  description : option string;
  fqn : list string;
  model : string;
  name : string;
  node_relation : option string;
  original_file_path : string;
  package_name : string;
  path : string;
  resource_type : NodeType.t;
  unique_id : string;
  entities : list Dict;
  measures : list Dict;
  dimensions : list Dict;
}.
End SemanticModel.

(** A node as the compile task sees it: an executable (SQL) node. *)
Module SqlNode.
Record t := {
  unique_id : string;
  name : string;
  resource_type : NodeType.t;
  is_ephemeral_model : bool;
  compiled_code : option string;
}.
End SqlNode.

Inductive GraphNode {TG MT : Type} :=
| ExposureNode (n : Exposure.t)
| MetricNode (n : Metric.t TG MT)
| GroupNode (n : Group.t)
| SemanticModelNode (n : SemanticModel.t)
| ExecutableNode (n : SqlNode.t).
Arguments GraphNode : clear implicits.

Definition node_unique_id {TG MT} (n : GraphNode TG MT) : string :=
  match n with
  | ExposureNode n => Exposure.unique_id n
  | MetricNode n => Metric.unique_id n
  | GroupNode n => Group.unique_id n
  | SemanticModelNode n => SemanticModel.unique_id n
  | ExecutableNode n => SqlNode.unique_id n
  end.

(** ** The manifest *)

(** Modelled from the spec: the [Manifest] class and its [add_exposure],
    [add_metric], [add_group], [add_semantic_model] and [add_disabled] methods
    are not among the sources.  The specification (section 3) gives a manifest
    two partitions, [enabled : map<unique_id, GraphNode>] and
    [disabled : map<file, list<GraphNode>>], mutated by append or update by
    unique id.  [nodes] is the enabled partition, the map [CompileTask] reaches
    as [self.manifest.nodes]. *)
Record Manifest {TG MT : Type} := {
  nodes : gmap string (GraphNode TG MT);
  disabled : gmap string (list (GraphNode TG MT));
}.
Arguments Manifest : clear implicits.

Section ManifestOps.
Context {TG MT : Type}.
Implicit Types (m : Manifest TG MT) (n : GraphNode TG MT).

(** Modelled from the spec: registration in the enabled partition, under the
    node's unique id. *)
Definition add_enabled m n : Manifest TG MT :=
  {| nodes := <[node_unique_id n := n]> (nodes m); disabled := disabled m |}.

(** Modelled from the spec: registration in the disabled partition, appended
    to the list kept for the source file. *)
Definition add_disabled m (f : SourceFile) n : Manifest TG MT :=
  {| nodes := nodes m;
     disabled := <[file_id f := default [] (disabled m !! file_id f) ++ [n]]> (disabled m) |}.

Definition in_enabled m n : Prop := nodes m !! node_unique_id n = Some n.

Definition in_disabled m (f : SourceFile) n : Prop :=
  ∃ l, disabled m !! file_id f = Some l ∧ n ∈ l.
End ManifestOps.

(** ** Methods as state transformers that may raise

    A method runs on a world [W] (whatever it can mutate) and either returns
    or raises; in both cases the mutations made so far remain. *)

Definition M (W A : Type) : Type := W → outcome A * W.

Definition ret {W A} (a : A) : M W A := λ w, (Return a, w).

Definition bind {W A B} (m : M W A) (k : A → M W B) : M W B :=
  λ w, match m w with
       | (Return a, w') => k a w'
       | (Raise e, w') => (Raise e, w')
       end.

Definition raise {W A} (e : Exception) : M W A := λ w, (Raise e, w).

Definition lift {W A} (o : outcome A) : M W A := λ w, (o, w).

Definition gets {W A} (f : W → A) : M W A := λ w, (Return (f w), w).

Definition modify {W} (f : W → W) : M W unit := λ w, (Return tt, f w).

#[export] Instance M_ret {W} : MRet (M W) := λ A, ret.
#[export] Instance M_bind {W} : MBind (M W) := λ A B k m, bind m k.

(** [for x in xs: body(x)] *)
Fixpoint for_each {W A} (xs : list A) (body : A → M W unit) : M W unit :=
  match xs with
  | [] => ret tt
  | x :: xs' => bind (body x) (λ _, for_each xs' body)
  end.

(** [E(v)], raising [ValueError] when [v] is no member's value. *)
Definition enum_call `{StrEnum E} {W} (v : string) : M W E :=
  match enum_of_value v with
  | Some item => ret item
  | None => raise (ValueError ("'" +:+ v +:+ "' is not a valid " +:+ enum_name))
  end.

(** [int(s)], raising [ValueError] when [s] is not a run of decimal digits. *)
Definition int_call {W} (s : string) : M W Z :=
  match Py.int s with
  | Some n => ret n
  | None => raise (ValueError ("invalid literal for int() with base 10: '" +:+ s +:+ "'"))
  end.

(** What a reader can observe of its collaborators: each call of a config
    generator's [calculate_node_config], and each registration of a node in
    the manifest. *)
Inductive Event :=
| ConfigResolved (rendered : bool) (resource_type : NodeType.t)
    (fqn : list string) (project_name : string)
| NodeRegistered (enabled : bool) (unique_id : string).

Record World {TG MT : Type} := {
  manifest : Manifest TG MT;
  events : list Event;
}.
Arguments World : clear implicits.

(** [self] of a reader: [self.project.project_name] and [self.yaml]. *)
Record Reader := {
  project_name : string;
  yaml : YamlBlock;
}.

(** What the renderer records on an exposure in capture mode. *)
Record Captured := {
  captured_refs : list string;
  captured_sources : list string;
  captured_metrics : list string;
}.

(** ** [schema_yaml_readers.py] *)

Section Readers.
Context {TimeGranularity MetricType : Type}.
Context `{!StrEnum TimeGranularity} `{!StrEnum MetricType}.

#[local] Abbreviation W := (World TimeGranularity MetricType).
#[local] Abbreviation Node := (GraphNode TimeGranularity MetricType).

(** The collaborators of the readers, none of them among the sources:
    - [calculate_node_config rendered ...] is
      [ContextConfigGenerator(self.root_project).calculate_node_config] when
      [rendered] and [UnrenderedConfigGenerator(...)]'s otherwise, with the
      arguments in the order of the call;
    - [finalize_and_validate] is the method of that name of its result;
    - [get_fqn_prefix] is [self.schema_parser.get_fqn_prefix];
    - [get_rendered text manifest package parsed] is
      [get_rendered(text, ctx, parsed, capture_macros=True)] on the context
      [generate_parse_exposure] builds, returning what it records on
      [parsed]. *)
Variable calculate_node_config :
  bool → Dict → list string → NodeType.t → string → bool → Dict → outcome ConfigObj.
Variable finalize_and_validate : ConfigObj → outcome ConfigObj.
Variable get_fqn_prefix : string → list string.
Variable get_rendered :
  string → Manifest TimeGranularity MetricType → string → Exposure.t → outcome Captured.

Definition log (e : Event) : M W unit :=
  modify (λ w, {| manifest := manifest w; events := events w ++ [e] |}).

(** [self.manifest.add_exposure(file, node)] and its siblings for metrics,
    groups and semantic models: see [add_enabled]. *)
Definition manifest_add (n : Node) : M W unit :=
  modify (λ w, {| manifest := add_enabled (manifest w) n; events := events w |});;
  log (NodeRegistered true (node_unique_id n)).

(** [self.manifest.add_disabled(file, node)]: see [add_disabled]. *)
Definition manifest_add_disabled (f : SourceFile) (n : Node) : M W unit :=
  modify (λ w, {| manifest := add_disabled (manifest w) f n; events := events w |});;
  log (NodeRegistered false (node_unique_id n)).

(** *** [MetricParser] *)

Definition _get_input_measure
    (unparsed_input_measure : StrOr UnparsedMetricInputMeasure.t) : MetricInputMeasure.t :=
  match unparsed_input_measure with
  | IsStr s =>
      {| MetricInputMeasure.name := s;
         MetricInputMeasure.filter := None;
         MetricInputMeasure.alias := None |}
  | IsObj u =>
      let filter :=
        match UnparsedMetricInputMeasure.filter u with
        | Some f => Some {| WhereFilter.where_sql_template := f |}
        | None => None
        end in
      {| MetricInputMeasure.name := UnparsedMetricInputMeasure.name u;
         MetricInputMeasure.filter := filter;
         MetricInputMeasure.alias := UnparsedMetricInputMeasure.alias u |}
  end.

Definition _get_optional_input_measure
    (unparsed_input_measure : option (StrOr UnparsedMetricInputMeasure.t))
    : option MetricInputMeasure.t :=
  match unparsed_input_measure with
  | Some u => Some (_get_input_measure u)
  | None => None
  end.

Definition _get_input_measures
    (unparsed_input_measures : option (list (StrOr UnparsedMetricInputMeasure.t)))
    : list MetricInputMeasure.t :=
  match unparsed_input_measures with
  | Some us => fold_left (λ input_measures u, input_measures ++ [_get_input_measure u]) us []
  | None => []
  end.

Definition invalid_window_error (self : Reader) (unparsed_window : string) : Exception :=
  YamlParseDictError (path (yaml self)) "window" {[ "window" := VStr unparsed_window ]}
    ("Invalid window (" +:+ unparsed_window +:+
     ") in cumulative metric. Should be of the form `<count> <granularity>`, e.g., `28 days`").

Definition invalid_granularity_error (self : Reader) (granularity unparsed_window : string)
    : Exception :=
  YamlParseDictError (path (yaml self)) "window" {[ "window" := VStr unparsed_window ]}
    ("Invalid time granularity " +:+ granularity +:+
     " in cumulative metric window string: (" +:+ unparsed_window +:+ ")").

Definition invalid_count_error (self : Reader) (count unparsed_window : string) : Exception :=
  YamlParseDictError (path (yaml self)) "window" {[ "window" := VStr unparsed_window ]}
    ("Invalid count (" +:+ count +:+
     ") in cumulative metric window string: (" +:+ unparsed_window +:+ ")").

Definition _get_time_window (self : Reader) (unparsed_window : option string)
    : M W (option (MetricTimeWindow.t TimeGranularity)) :=
  match unparsed_window with
  | Some unparsed_window =>
      match Py.split " " unparsed_window with
      | [count; granularity] =>
          let granularity :=
            if Py.endswith "s" granularity then Py.drop_last granularity
            else granularity in
          if negb (Py.contains granularity (enum_values (E := TimeGranularity))) then
            raise (invalid_granularity_error self granularity unparsed_window)
          else if negb (Py.isdigit count) then
            raise (invalid_count_error self count unparsed_window)
          else
            n ← int_call count;
            g ← enum_call granularity;
            mret (Some {| MetricTimeWindow.count := n; MetricTimeWindow.granularity := g |})
      | _ => raise (invalid_window_error self unparsed_window)
      end
  | None => mret None
  end.

Fixpoint _get_metric_inputs_loop (self : Reader)
    (unparsed_metric_inputs : list (StrOr UnparsedMetricInput.t))
    (metric_inputs : list (MetricInput.t TimeGranularity))
    : M W (list (MetricInput.t TimeGranularity)) :=
  match unparsed_metric_inputs with
  | [] => mret metric_inputs
  | IsStr s :: rest =>
      _get_metric_inputs_loop self rest
        (metric_inputs ++
         [{| MetricInput.name := s;
             MetricInput.filter := None;
             MetricInput.alias := None;
             MetricInput.offset_window := None;
             MetricInput.offset_to_grain := None |}])
  | IsObj u :: rest =>
      offset_to_grain ←
        match UnparsedMetricInput.offset_to_grain u with
        | Some g => g' ← enum_call g; mret (Some g')
        | None => mret None
        end;
      let filter :=
        match UnparsedMetricInput.filter u with
        | Some f => Some {| WhereFilter.where_sql_template := f |}
        | None => None
        end in
      offset_window ← _get_time_window self (UnparsedMetricInput.offset_window u);
      _get_metric_inputs_loop self rest
        (metric_inputs ++
         [{| MetricInput.name := UnparsedMetricInput.name u;
             MetricInput.filter := filter;
             MetricInput.alias := UnparsedMetricInput.alias u;
             MetricInput.offset_window := offset_window;
             MetricInput.offset_to_grain := offset_to_grain |}])
  end.

Definition _get_metric_inputs (self : Reader)
    (unparsed_metric_inputs : option (list (StrOr UnparsedMetricInput.t)))
    : M W (list (MetricInput.t TimeGranularity)) :=
  match unparsed_metric_inputs with
  | Some us => _get_metric_inputs_loop self us []
  | None => mret []
  end.

Definition _get_metric_type_params (self : Reader) (type_params : UnparsedMetricTypeParams.t)
    : M W (MetricTypeParams.t TimeGranularity) :=
  grain_to_date ←
    match UnparsedMetricTypeParams.grain_to_date type_params with
    | Some g => g' ← enum_call g; mret (Some g')
    | None => mret None
    end;
  let measure := _get_optional_input_measure (UnparsedMetricTypeParams.measure type_params) in
  let measures := _get_input_measures (UnparsedMetricTypeParams.measures type_params) in
  let numerator := _get_optional_input_measure (UnparsedMetricTypeParams.numerator type_params) in
  let denominator :=
    _get_optional_input_measure (UnparsedMetricTypeParams.denominator type_params) in
  window ← _get_time_window self (UnparsedMetricTypeParams.window type_params);
  metrics ← _get_metric_inputs self (UnparsedMetricTypeParams.metrics type_params);
  mret {| MetricTypeParams.measure := measure;
          MetricTypeParams.measures := measures;
          MetricTypeParams.numerator := numerator;
          MetricTypeParams.denominator := denominator;
          MetricTypeParams.expr := UnparsedMetricTypeParams.expr type_params;
          MetricTypeParams.window := window;
          MetricTypeParams.grain_to_date := grain_to_date;
          MetricTypeParams.metrics := metrics |}.

(** [precedence_configs = dict(); precedence_configs.update(target.config)] *)
Definition dict_update (d new : Dict) : Dict := new ∪ d.

(** The body shared by [_generate_exposure_config] and
    [_generate_metric_config], which differ in the resource type passed. *)
Definition generate_config (resource_type : NodeType.t) (target_config : Dict)
    (fqn : list string) (package_name : string) (rendered : bool) : M W ConfigObj :=
  let precedence_configs := dict_update ∅ target_config in
  log (ConfigResolved rendered resource_type fqn package_name);;
  lift (calculate_node_config rendered ∅ fqn resource_type package_name false
          precedence_configs).

Definition _generate_metric_config (self : Reader) (target : UnparsedMetric.t)
    (fqn : list string) (package_name : string) (rendered : bool) : M W ConfigObj :=
  generate_config NodeType.Metric (UnparsedMetric.config target) fqn package_name rendered.

Definition unique_id_of (resource_type : NodeType.t) (package_name name : string) : string :=
  NodeType.str resource_type +:+ "." +:+ package_name +:+ "." +:+ name.

Definition parse_metric (self : Reader) (unparsed : UnparsedMetric.t) : M W unit :=
  let package_name := project_name self in
  let unique_id := unique_id_of NodeType.Metric package_name (UnparsedMetric.name unparsed) in
  let yaml_path := path (yaml self) in
  let path := relative_path yaml_path in
  let fqn := get_fqn_prefix path ++ [UnparsedMetric.name unparsed] in
  config ← _generate_metric_config self unparsed fqn package_name true;
  config ← lift (finalize_and_validate config);
  unrendered_config ← _generate_metric_config self unparsed fqn package_name false;
  match config with
  | MetricConfigObj config =>
      let filter :=
        match UnparsedMetric.filter unparsed with
        | Some f => Some {| WhereFilter.where_sql_template := f |}
        | None => None
        end in
      type ← enum_call (UnparsedMetric.type unparsed);
      type_params ← _get_metric_type_params self (UnparsedMetric.type_params unparsed);
      let parsed :=
        {| Metric.resource_type := NodeType.Metric;
           Metric.package_name := package_name;
           Metric.path := path;
           Metric.original_file_path := original_file_path yaml_path;
           Metric.unique_id := unique_id;
           Metric.fqn := fqn;
           Metric.name := UnparsedMetric.name unparsed;
           Metric.description := UnparsedMetric.description unparsed;
           Metric.label := UnparsedMetric.label unparsed;
           Metric.type := type;
           Metric.type_params := type_params;
           Metric.filter := filter;
           Metric.meta := UnparsedMetric.meta unparsed;
           Metric.tags := UnparsedMetric.tags unparsed;
           Metric.config := config;
           Metric.unrendered_config := unrendered_config;
           Metric.group := metric_group config |} in
      if metric_enabled (Metric.config parsed) then
        manifest_add (MetricNode parsed)
      else
        manifest_add_disabled (file (yaml self)) (MetricNode parsed)
  | _ =>
      raise (DbtInternalError
               ("Calculated a " +:+ type_repr_of config +:+
                " for a metric, but expected a MetricConfig"))
  end.

(** *** [ExposureParser] *)

Definition _generate_exposure_config (self : Reader) (target : UnparsedExposure.t)
    (fqn : list string) (package_name : string) (rendered : bool) : M W ConfigObj :=
  generate_config NodeType.Exposure (UnparsedExposure.config target) fqn package_name rendered.

(** [sep.join(xs)] *)
Fixpoint join (sep : string) (xs : list string) : string :=
  match xs with
  | [] => ""
  | [x] => x
  | x :: rest => x +:+ sep +:+ join sep rest
  end.

Definition newline : string := String "010" "".

Definition parse_exposure (self : Reader) (unparsed : UnparsedExposure.t) : M W unit :=
  let package_name := project_name self in
  let unique_id :=
    unique_id_of NodeType.Exposure package_name (UnparsedExposure.name unparsed) in
  let yaml_path := path (yaml self) in
  let path := relative_path yaml_path in
  let fqn := get_fqn_prefix path ++ [UnparsedExposure.name unparsed] in
  config ← _generate_exposure_config self unparsed fqn package_name true;
  config ← lift (finalize_and_validate config);
  unrendered_config ← _generate_exposure_config self unparsed fqn package_name false;
  match config with
  | ExposureConfigObj config =>
      let parsed :=
        {| Exposure.resource_type := NodeType.Exposure;
           Exposure.package_name := package_name;
           Exposure.path := path;
           Exposure.original_file_path := original_file_path yaml_path;
           Exposure.unique_id := unique_id;
           Exposure.fqn := fqn;
           Exposure.name := UnparsedExposure.name unparsed;
           Exposure.type := UnparsedExposure.type unparsed;
           Exposure.url := UnparsedExposure.url unparsed;
           Exposure.meta := UnparsedExposure.meta unparsed;
           Exposure.tags := UnparsedExposure.tags unparsed;
           Exposure.description := UnparsedExposure.description unparsed;
           Exposure.label := UnparsedExposure.label unparsed;
           Exposure.owner := UnparsedExposure.owner unparsed;
           Exposure.maturity := UnparsedExposure.maturity unparsed;
           Exposure.config := config;
           Exposure.unrendered_config := unrendered_config;
           Exposure.refs := [];
           Exposure.sources := [];
           Exposure.metrics := [] |} in
      let depends_on_jinja :=
        join newline
          ((λ line, "{{ " +:+ line +:+ "}}") <$> UnparsedExposure.depends_on unparsed) in
      the_manifest ← gets manifest;
      captured ← lift (get_rendered depends_on_jinja the_manifest package_name parsed);
      (* parsed now has a populated refs/sources/metrics *)
      let parsed :=
        {| Exposure.resource_type := Exposure.resource_type parsed;
           Exposure.package_name := Exposure.package_name parsed;
           Exposure.path := Exposure.path parsed;
           Exposure.original_file_path := Exposure.original_file_path parsed;
           Exposure.unique_id := Exposure.unique_id parsed;
           Exposure.fqn := Exposure.fqn parsed;
           Exposure.name := Exposure.name parsed;
           Exposure.type := Exposure.type parsed;
           Exposure.url := Exposure.url parsed;
           Exposure.meta := Exposure.meta parsed;
           Exposure.tags := Exposure.tags parsed;
           Exposure.description := Exposure.description parsed;
           Exposure.label := Exposure.label parsed;
           Exposure.owner := Exposure.owner parsed;
           Exposure.maturity := Exposure.maturity parsed;
           Exposure.config := Exposure.config parsed;
           Exposure.unrendered_config := Exposure.unrendered_config parsed;
           Exposure.refs := captured_refs captured;
           Exposure.sources := captured_sources captured;
           Exposure.metrics := captured_metrics captured |} in
      if exposure_enabled (Exposure.config parsed) then
        manifest_add (ExposureNode parsed)
      else
        manifest_add_disabled (file (yaml self)) (ExposureNode parsed)
  | _ =>
      raise (DbtInternalError
               ("Calculated a " +:+ type_repr_of config +:+
                " for an exposure, but expected an ExposureConfig"))
  end.

(** *** [GroupParser] *)

Definition parse_group (self : Reader) (unparsed : UnparsedGroup.t) : M W unit :=
  let package_name := project_name self in
  let unique_id := unique_id_of NodeType.Group package_name (UnparsedGroup.name unparsed) in
  let yaml_path := path (yaml self) in
  let path := relative_path yaml_path in
  let parsed :=
    {| Group.resource_type := NodeType.Group;
       Group.package_name := package_name;
       Group.path := path;
       Group.original_file_path := original_file_path yaml_path;
       Group.unique_id := unique_id;
       Group.name := UnparsedGroup.name unparsed;
       Group.owner := UnparsedGroup.owner unparsed |} in
  manifest_add (GroupNode parsed).

(** *** [SemanticModelParser] *)

Definition parse_semantic_model (self : Reader) (unparsed : UnparsedSemanticModel.t)
    : M W unit :=
  let package_name := project_name self in
  let unique_id :=
    unique_id_of NodeType.SemanticModel package_name (UnparsedSemanticModel.name unparsed) in
  let yaml_path := path (yaml self) in
  let path := relative_path yaml_path in
  let fqn := get_fqn_prefix path ++ [UnparsedSemanticModel.name unparsed] in
  let parsed :=
    {| SemanticModel.description := UnparsedSemanticModel.description unparsed;
       SemanticModel.fqn := fqn;
       SemanticModel.model := UnparsedSemanticModel.model unparsed;
       SemanticModel.name := UnparsedSemanticModel.name unparsed;
       SemanticModel.node_relation := None;
       SemanticModel.original_file_path := original_file_path yaml_path;
       SemanticModel.package_name := package_name;
       SemanticModel.path := path;
       SemanticModel.resource_type := NodeType.SemanticModel;
       SemanticModel.unique_id := unique_id;
       SemanticModel.entities := UnparsedSemanticModel.entities unparsed;
       SemanticModel.measures := UnparsedSemanticModel.measures unparsed;
       SemanticModel.dimensions := UnparsedSemanticModel.dimensions unparsed |} in
  manifest_add (SemanticModelNode parsed).

End Readers.

(** ** [common_identifiers.py] *)

Module IdentifierReference.
Record t := { name : string }.

#[global] Instance eq_dec : EqDecision t.
Proof. solve_decision. Defined.

#[global] Instance countable : Countable t.
Proof.
  apply (inj_countable' name (λ s, {| name := s |})).
  intros []. reflexivity.
Defined.
End IdentifierReference.

(** An identifier of an entity.  The class is not among the sources; the
    rule reads its [name] and its [reference] and nothing else, so both are
    kept, unrelated. *)
Module Identifier.
Record t := {
  name : string;
  reference : IdentifierReference.t;
}.
End Identifier.

(** An entity; [identifiers] may be [None], which the rule reads as no
    identifier ([entity.identifiers or []]). *)
Module Entity.
Record t := {
  name : string;
  identifiers : option (list Identifier.t);
}.
End Entity.

Module UserConfiguredModel.
Record t := { entities : option (list Entity.t) }.
End UserConfiguredModel.

Record EntityElementReference := {
  entity_name : string;
  element_name : string;
}.

Inductive EntityElementType := MEASURE | DIMENSION | IDENTIFIER.

Record EntityElementContext := {
  entity_element : EntityElementReference;
  element_type : EntityElementType;
}.

Inductive ValidationIssueType :=
| ValidationWarning (context : EntityElementContext) (message : string)
| ValidationError (context : option EntityElementContext) (message : string).

Module CommonIdentifiersRule.

(** [xs or []] *)
Definition or_empty {A} (xs : option (list A)) : list A := default [] xs.

Definition _map_entity_identifiers (entities : option (list Entity.t))
    : gmap IdentifierReference.t (gset string) :=
  fold_left
    (λ identifiers_to_entities entity,
       fold_left
         (λ identifiers_to_entities identifier,
            match identifiers_to_entities !! Identifier.reference identifier with
            | Some names =>
                <[Identifier.reference identifier := names ∪ {[Entity.name entity]}]>
                  identifiers_to_entities
            | None =>
                <[Identifier.reference identifier := {[Entity.name entity]}]>
                  identifiers_to_entities
            end)
         (or_empty (Entity.identifiers entity)) identifiers_to_entities)
    (or_empty entities) ∅.

Definition only_one_entity_message (identifier : Identifier.t) (entity : Entity.t) : string :=
  "Identifier `" +:+ IdentifierReference.name (Identifier.reference identifier) +:+ "` " +:+
  "only found in one entity `" +:+ Entity.name entity +:+ "` " +:+
  "which means it will be unused in joins.".

Definition only_one_entity_warning (identifier : Identifier.t) (entity : Entity.t)
    : ValidationIssueType :=
  ValidationWarning
    {| entity_element :=
         {| entity_name := Entity.name entity; element_name := Identifier.name identifier |};
       element_type := IDENTIFIER |}
    (only_one_entity_message identifier entity).

(** The body of [_check_identifier].  It raises nothing (the lookup is
    guarded by the membership test), so the [validate_safely] wrapper, which
    only turns an exception of the body into an error issue, passes its
    result on. *)
Definition _check_identifier (identifier : Identifier.t) (entity : Entity.t)
    (identifiers_to_entities : gmap IdentifierReference.t (gset string))
    : list ValidationIssueType :=
  let issues := [] in
  match identifiers_to_entities !! Identifier.reference identifier with
  | Some names =>
      if bool_decide (size (names ∖ {[Entity.name entity]}) = 0%nat)
      then issues ++ [only_one_entity_warning identifier entity]
      else issues
  | None => issues
  end.

Definition validate_model (model : UserConfiguredModel.t) : list ValidationIssueType :=
  let issues := [] in
  let identifiers_to_entities :=
    _map_entity_identifiers (UserConfiguredModel.entities model) in
  fold_left
    (λ issues entity,
       fold_left
         (λ issues identifier,
            issues ++ _check_identifier identifier entity identifiers_to_entities)
         (or_empty (Entity.identifiers entity)) issues)
    (or_empty (UserConfiguredModel.entities model)) issues.

End CommonIdentifiersRule.

(** ** [compile.py] *)

Module RunStatus.
Inductive t := Success | Error | Skipped.
End RunStatus.

Module RunResult.
Record t := {
  node : SqlNode.t;
  status : RunStatus.t;
  thread_id : string;
  execution_time : Z;
  message : option string;
  failures : option Z;
}.
End RunResult.

(** [self.args]: [select] is [None] or a tuple of selectors, [inline] is
    [None] (also when the attribute is missing, as [getattr(.., None)] reads
    it) or the inline query. *)
Record Args := {
  select : option (list string);
  inline : option string;
}.

(** Python truth of an optional string and of an optional sequence. *)
Definition truthy_str (o : option string) : bool :=
  match o with
  | Some s => negb (String.eqb s "")
  | None => false
  end.

Definition truthy_seq {A} (o : option (list A)) : bool :=
  match o with
  | Some (_ :: _) => true
  | _ => false
  end.

(** [type(self)]: [CompileTask] itself, or a class derived from it. *)
Inductive TaskClass :=
| CompileTaskClass
| DerivedClass (class_name : string).

Inductive FiredEvent :=
| ParseInlineNodeError (exc : string) (node_path node_name unique_id node_status : string).

Module CompileRunner.
(** [execute(compiled_node, manifest)]; the thread name is an input. *)
Definition execute (current_thread_name : string) (compiled_node : SqlNode.t) : RunResult.t :=
  {| RunResult.node := compiled_node;
     RunResult.status := RunStatus.Success;
     RunResult.thread_id := current_thread_name;
     RunResult.execution_time := 0;
     RunResult.message := None;
     RunResult.failures := None |}.
End CompileRunner.

Module CompileTask.

Record t {TG MT : Type} := {
  class : TaskClass;
  args : Args;
  manifest : Manifest TG MT;
  (* We add a new inline node to the manifest during initialization
     it should be removed before the task is complete *)
  _inline_node_id : option string;
  node_results : list RunResult.t;
  fired : list FiredEvent;
}.
Arguments t : clear implicits.

Section Methods.
Context {TG MT : Type}.

#[local] Abbreviation T := (t TG MT).

(** The collaborators of the task, none of them among the sources:
    - [parse_remote sql name] is
      [SqlBlockParser(..., manifest=self.manifest, ...).parse_remote(sql, name)]
      and [process_node node] is [process_node(self.config, self.manifest, node)];
      both act on the manifest;
    - [super_runtime_initialize], [super_after_run] and
      [super_handle_result] are the methods of [GraphRunnableTask] reached
      through [super()]. *)
Variable parse_remote : string → string → M (Manifest TG MT) SqlNode.t.
Variable process_node : SqlNode.t → M (Manifest TG MT) unit.
Variable super_runtime_initialize : M T unit.
Variable super_after_run : string → list RunResult.t → M T unit.
Variable super_handle_result : RunResult.t → M T unit.

Definition raise_on_first_error : bool := true.

Definition set_manifest (m : Manifest TG MT) (self : T) : T :=
  {| class := class self; args := args self; manifest := m;
     _inline_node_id := _inline_node_id self;
     node_results := node_results self; fired := fired self |}.

Definition set_inline_node_id (i : option string) (self : T) : T :=
  {| class := class self; args := args self; manifest := manifest self;
     _inline_node_id := i;
     node_results := node_results self; fired := fired self |}.

Definition append_node_result (r : RunResult.t) (self : T) : T :=
  {| class := class self; args := args self; manifest := manifest self;
     _inline_node_id := _inline_node_id self;
     node_results := node_results self ++ [r]; fired := fired self |}.

Definition fire_event (e : FiredEvent) (self : T) : T :=
  {| class := class self; args := args self; manifest := manifest self;
     _inline_node_id := _inline_node_id self;
     node_results := node_results self; fired := fired self ++ [e] |}.

(** A call that acts on [self.manifest]. *)
Definition on_manifest {A} (m : M (Manifest TG MT) A) : M T A :=
  λ self, let '(o, m') := m (manifest self) in (o, set_manifest m' self).

(** [try: body / except CompilationError as exc: handler(exc.msg)] *)
Definition try_except_CompilationError {A} (body : M T A) (handler : string → M T A)
    : M T A :=
  λ self,
    match body self with
    | (Raise (CompilationError msg), self') => handler msg self'
    | r => r
    end.

Definition _runtime_initialize : M T unit :=
  inline_arg ← gets (λ self, inline (args self));
  (if truthy_str inline_arg then
     try_except_CompilationError
       (sql_node ← on_manifest (parse_remote (default "" inline_arg) "inline_query");
        on_manifest (process_node sql_node);;
        (* keep track of the node added to the manifest *)
        modify (set_inline_node_id (Some (SqlNode.unique_id sql_node))))
       (λ msg,
          modify (fire_event
                    (ParseInlineNodeError msg "sql/inline_query" "inline_query"
                       "sqloperation.test.inline_query" "failed"));;
          raise (DbtException "Error parsing inline query"))
   else mret tt);;
  super_runtime_initialize.

(** [self.manifest.nodes.pop(key)], without a default. *)
Definition nodes_pop (key : string) : M T unit :=
  λ self,
    match nodes (manifest self) !! key with
    | Some _ =>
        (Return tt,
         set_manifest {| nodes := delete key (nodes (manifest self));
                         disabled := disabled (manifest self) |} self)
    | None => (Raise (KeyError key), self)
    end.

Definition after_run (adapter : string) (results : list RunResult.t) : M T unit :=
  (* remove inline node from manifest *)
  inline_node_id ← gets _inline_node_id;
  (if truthy_str inline_node_id then
     nodes_pop (default "" inline_node_id);;
     modify (set_inline_node_id None)
   else mret tt);;
  super_after_run adapter results.

Definition is_CompileTask (c : TaskClass) : bool :=
  match c with
  | CompileTaskClass => true
  | DerivedClass _ => false
  end.

Definition _handle_result (result : RunResult.t) : M T unit :=
  super_handle_result result;;
  self ← gets id;
  if SqlNode.is_ephemeral_model (RunResult.node result)
     && is_CompileTask (class self)
     && (truthy_seq (select (args self)) || truthy_str (inline (args self)))
  then modify (append_node_result result)
  else mret tt.



End Methods.
End CompileTask.

(** ** Inputs used in examples *)

Definition example_reader : Reader :=
  {| project_name := "jaffle";
     yaml := {| path := {| relative_path := "models/schema.yml";
                           original_file_path := "models/schema.yml" |};
                file := {| file_id := "jaffle://models/schema.yml" |} |} |}.

Definition empty_manifest {TG MT} : Manifest TG MT := {| nodes := ∅; disabled := ∅ |}.

Definition empty_world {TG MT} : World TG MT := {| manifest := empty_manifest; events := [] |}.

(** The metric types of [dbt_semantic_interfaces] (used in examples only). *)
Inductive SimpleMetricType := SIMPLE | RATIO | CUMULATIVE | DERIVED.

#[export] Instance SimpleMetricType_enum : StrEnum SimpleMetricType := {|
  enum_name := "MetricType";
  enum_items := [SIMPLE; RATIO; CUMULATIVE; DERIVED];
  enum_value t :=
    match t with
    | SIMPLE => "simple" | RATIO => "ratio"
    | CUMULATIVE => "cumulative" | DERIVED => "derived"
    end;
|}.

Abbreviation CalendarWorld := (World CalendarGranularity SimpleMetricType).

(** Collaborators for the examples: a resolver that reads [enabled] off the
    patch config (a resource is enabled unless told otherwise), a renderer
    that captures nothing, and a project whose files lie under [models]. *)
Definition example_enabled (patch : Dict) : bool :=
  match patch !! "enabled" with
  | Some (VBool false) => false
  | _ => true
  end.

Definition example_calculate_node_config (rendered : bool) (config_call_dict : Dict)
    (fqn : list string) (resource_type : NodeType.t) (project_name : string) (base : bool)
    (patch_config_dict : Dict) : outcome ConfigObj :=
  if rendered then
    match resource_type with
    | NodeType.Exposure =>
        Return (ExposureConfigObj {| exposure_enabled := example_enabled patch_config_dict;
                                     exposure_extra := patch_config_dict |})
    | NodeType.Metric =>
        Return (MetricConfigObj {| metric_enabled := example_enabled patch_config_dict;
                                   metric_group := None;
                                   metric_extra := patch_config_dict |})
    | _ => Raise (DbtInternalError "no config for this resource type")
    end
  else Return (DictObj patch_config_dict).


Definition example_finalize_and_validate (c : ConfigObj) : outcome ConfigObj := Return c.

Definition example_get_fqn_prefix (path : string) : list string := ["jaffle"].

Definition example_get_rendered {TG MT} (text : string) (m : Manifest TG MT)
    (package_name : string) (parsed : Exposure.t) : outcome Captured :=
  Return {| captured_refs := []; captured_sources := []; captured_metrics := [] |}.

Definition example_exposure (config : Dict) : UnparsedExposure.t :=
  {| UnparsedExposure.name := "weekly_kpis";
     UnparsedExposure.type := "dashboard";
     UnparsedExposure.url := None;
     UnparsedExposure.meta := ∅;
     UnparsedExposure.tags := [];
     UnparsedExposure.description := "";
     UnparsedExposure.label := None;
     UnparsedExposure.owner := {[ "email" := VStr "a@example.com" ]};
     UnparsedExposure.maturity := None;
     UnparsedExposure.depends_on := ["ref('orders')"];
     UnparsedExposure.config := config |}.

Definition example_metric (config : Dict) : UnparsedMetric.t :=
  {| UnparsedMetric.name := "ratio_metric";
     UnparsedMetric.label := "Ratio";
     UnparsedMetric.type := "cumulative";
     UnparsedMetric.type_params :=
       {| UnparsedMetricTypeParams.measure := Some (IsStr "orders");
          UnparsedMetricTypeParams.measures := None;
          UnparsedMetricTypeParams.numerator := None;
          UnparsedMetricTypeParams.denominator := None;
          UnparsedMetricTypeParams.expr := None;
          UnparsedMetricTypeParams.window := Some "7 days";
          UnparsedMetricTypeParams.grain_to_date := None;
          UnparsedMetricTypeParams.metrics := None |};
     UnparsedMetric.description := "";
     UnparsedMetric.filter := None;
     UnparsedMetric.meta := ∅;
     UnparsedMetric.tags := [];
     UnparsedMetric.config := config |}.

Definition example_group : UnparsedGroup.t :=
  {| UnparsedGroup.name := "finance";
     UnparsedGroup.owner := {[ "email" := VStr "f@example.com" ]} |}.

Definition example_semantic_model : UnparsedSemanticModel.t :=
  {| UnparsedSemanticModel.name := "orders";
     UnparsedSemanticModel.description := None;
     UnparsedSemanticModel.model := "ref('orders')";
     UnparsedSemanticModel.entities := [];
     UnparsedSemanticModel.measures := [];
     UnparsedSemanticModel.dimensions := [] |}.

(** The example declarations read in an empty world. *)
Definition disabled_config : Dict := {[ "enabled" := VBool false ]}.

Definition read_example_exposure (config : Dict) : outcome unit * CalendarWorld :=
  parse_exposure example_calculate_node_config example_finalize_and_validate
    example_get_fqn_prefix example_get_rendered example_reader (example_exposure config)
    empty_world.

Definition read_example_metric (config : Dict) : outcome unit * CalendarWorld :=
  parse_metric example_calculate_node_config example_finalize_and_validate
    example_get_fqn_prefix example_reader (example_metric config) empty_world.


Definition read_example_group : outcome unit * CalendarWorld :=
  parse_group example_reader example_group empty_world.

(** ** Words of the specification *)

(** A token holds no space. *)
Definition is_token (s : string) : Prop :=
  Py.all_chars (λ c, negb (Ascii.eqb c " ")) s = true.

(** "After stripping one trailing s". *)
Definition strip_one_s (granularity : string) : string :=
  if Py.endswith "s" granularity then Py.drop_last granularity else granularity.

(** "Composed of decimal digits": at least one character, each of them one of
    [0] to [9]. *)
Definition decimal_digits (count : string) : Prop := Py.isdecimal count = true.

(** The number of config resolutions of one kind among some events. *)
Definition resolutions (rendered : bool) (evs : list Event) : nat :=
  length (List.filter
            (λ e, match e with
                  | ConfigResolved r _ _ _ => Bool.eqb r rendered
                  | NodeRegistered _ _ => false
                  end) evs).

(** What the readers compute for a declaration, in the words of the
    specification: its fully-qualified name, the two resolutions of its
    config (calls of the resolver), and what a successful reading leaves in
    the world, namely the node in one partition and three events. *)
Section ReaderWords.
Context {TG MT : Type}.
Variable calculate_node_config :
  bool → Dict → list string → NodeType.t → string → bool → Dict → outcome ConfigObj.
Variable get_fqn_prefix : string → list string.

Definition fqn_of (self : Reader) (name : string) : list string :=
  get_fqn_prefix (relative_path (path (yaml self))) ++ [name].

Definition resolved (rendered : bool) (resource_type : NodeType.t) (self : Reader)
    (name : string) (target_config : Dict) : outcome ConfigObj :=
  calculate_node_config rendered ∅ (fqn_of self name) resource_type (project_name self)
    false (dict_update ∅ target_config).

Definition registered (resource_type : NodeType.t) (self : Reader) (name : string)
    (enabled : bool) (n : GraphNode TG MT) (st : World TG MT) : World TG MT :=
  {| manifest :=
       if enabled then add_enabled (manifest st) n
       else add_disabled (manifest st) (file (yaml self)) n;
     events :=
       events st ++
       [ConfigResolved true resource_type (fqn_of self name) (project_name self);
        ConfigResolved false resource_type (fqn_of self name) (project_name self);
        NodeRegistered enabled (node_unique_id n)] |}.
End ReaderWords.

(** The declarations of a model, in the order the rule visits them: each
    identifier with the entity it is declared on. *)
Definition declarations (model : UserConfiguredModel.t) : list (Entity.t * Identifier.t) :=
  CommonIdentifiersRule.or_empty (UserConfiguredModel.entities model) ≫=
    λ entity, (λ identifier, (entity, identifier)) <$>
                CommonIdentifiersRule.or_empty (Entity.identifiers entity).

(** One step of the rule's index: the entity's name joins the names recorded
    for the identifier's reference (the body of the inner loop of
    [_map_entity_identifiers]). *)
Definition index_step (d : gmap IdentifierReference.t (gset string))
    (entity : Entity.t) (identifier : Identifier.t)
    : gmap IdentifierReference.t (gset string) :=
  match d !! Identifier.reference identifier with
  | Some names => <[Identifier.reference identifier := names ∪ {[Entity.name entity]}]> d
  | None => <[Identifier.reference identifier := {[Entity.name entity]}]> d
  end.

(** An issue references an identifier when it is the rule's warning for a
    declaration of it. *)
Definition references (r : IdentifierReference.t) (issue : ValidationIssueType) : Prop :=
  ∃ entity identifier,
    Identifier.reference identifier = r
    ∧ issue = CommonIdentifiersRule.only_one_entity_warning identifier entity.

(** The entity graphs of the specification's example: [foo] declared on [A]
    only, and [foo] declared on both [A] and [B]. *)
Definition identifier_foo : Identifier.t :=
  {| Identifier.name := "foo"; Identifier.reference := {| IdentifierReference.name := "foo" |} |}.

Definition entity_A : Entity.t :=
  {| Entity.name := "A"; Entity.identifiers := Some [identifier_foo] |}.

Definition entity_B : Entity.t :=
  {| Entity.name := "B"; Entity.identifiers := Some [identifier_foo] |}.

Definition model_foo_on_A : UserConfiguredModel.t :=
  {| UserConfiguredModel.entities := Some [entity_A] |}.

Definition model_foo_on_A_and_B : UserConfiguredModel.t :=
  {| UserConfiguredModel.entities := Some [entity_A; entity_B] |}.

(** A third graph: [foo] on [A] alone, [bar] on both [A] and [B]. *)
Definition identifier_bar : Identifier.t :=
  {| Identifier.name := "bar"; Identifier.reference := {| IdentifierReference.name := "bar" |} |}.

Definition entity_A_foo_bar : Entity.t :=
  {| Entity.name := "A"; Entity.identifiers := Some [identifier_foo; identifier_bar] |}.

Definition entity_B_bar : Entity.t :=
  {| Entity.name := "B"; Entity.identifiers := Some [identifier_bar] |}.

Definition model_foo_bar : UserConfiguredModel.t :=
  {| UserConfiguredModel.entities := Some [entity_A_foo_bar; entity_B_bar] |}.

(** What the specification (sections 4.5 and 5) says of the steps of a run
    other than the injection and the retraction of the inline node: they
    neither add nodes to the manifest nor remove nodes from it, and they do
    not touch the task's record of the inline node. *)
Definition keeps_node_keys {TG MT A} (step : M (CompileTask.t TG MT) A) : Prop :=
  ∀ self,
    dom (nodes (CompileTask.manifest (step self).2)) = dom (nodes (CompileTask.manifest self))
    ∧ CompileTask._inline_node_id (step self).2 = CompileTask._inline_node_id self.

(** The handler inherited from the base class leaves the result of an
    ephemeral model out of [node_results], and leaves the task's class and
    arguments alone. *)
Definition leaves_ephemeral_out {TG MT}
    (super_handle_result : RunResult.t → M (CompileTask.t TG MT) unit) : Prop :=
  ∀ result self,
    SqlNode.is_ephemeral_model (RunResult.node result) = true →
    CompileTask.node_results (super_handle_result result self).2 = CompileTask.node_results self
    ∧ CompileTask.args (super_handle_result result self).2 = CompileTask.args self
    ∧ CompileTask.class (super_handle_result result self).2 = CompileTask.class self.

(** Collaborators of the compile task for the examples: a parser that adds
    the inline node to the manifest, a base class whose handler records the
    results of the nodes that are not ephemeral. *)
Definition inline_node (name : string) : SqlNode.t :=
  {| SqlNode.unique_id := "sql_operation.jaffle." +:+ name;
     SqlNode.name := name;
     SqlNode.resource_type := NodeType.SqlOperation;
     SqlNode.is_ephemeral_model := false;
     SqlNode.compiled_code := None |}.

Definition example_parse_remote {TG MT} (sql name : string) : M (Manifest TG MT) SqlNode.t :=
  λ m, (Return (inline_node name), add_enabled m (ExecutableNode (inline_node name))).

Definition example_process_node {TG MT} (node : SqlNode.t) : M (Manifest TG MT) unit :=
  ret tt.

Definition base_runtime_initialize {TG MT} : M (CompileTask.t TG MT) unit := ret tt.

Definition base_after_run {TG MT} (adapter : string) (results : list RunResult.t)
    : M (CompileTask.t TG MT) unit :=
  ret tt.

Definition base_handle_result {TG MT} (result : RunResult.t) : M (CompileTask.t TG MT) unit :=
  if SqlNode.is_ephemeral_model (RunResult.node result) then ret tt
  else modify (CompileTask.append_node_result result).

Definition inline_task : CompileTask.t CalendarGranularity SimpleMetricType :=
  {| CompileTask.class := CompileTaskClass;
     CompileTask.args := {| select := None; inline := Some "select 1" |};
     CompileTask.manifest := empty_manifest;
     CompileTask._inline_node_id := None;
     CompileTask.node_results := [];
     CompileTask.fired := [] |}.

Definition ephemeral_result : RunResult.t :=
  CompileRunner.execute "Thread-1"
    {| SqlNode.unique_id := "model.jaffle.staging";
       SqlNode.name := "staging";
       SqlNode.resource_type := NodeType.Model;
       SqlNode.is_ephemeral_model := true;
       SqlNode.compiled_code := Some "select 1" |}.

Definition failed_result : RunResult.t :=
  {| RunResult.node := inline_node "inline_query";
     RunResult.status := RunStatus.Error;
     RunResult.thread_id := "Thread-1";
     RunResult.execution_time := 0;
     RunResult.message := Some "Database Error";
     RunResult.failures := None |}.

(** A fourth graph: [foo] listed twice among the identifiers of [A]. *)
Definition model_foo_twice_on_A : UserConfiguredModel.t :=
  {| UserConfiguredModel.entities :=
       Some [{| Entity.name := "A";
                Entity.identifiers := Some [identifier_foo; identifier_foo] |}] |}.

(** ** More of the sources *)

(** *** The [parse] methods of the readers

    The four [parse] methods have one shape: every entry of
    [self.get_key_dicts()] is validated and loaded ([validate] and
    [from_dict] of the unparsed class, a collaborator here, which answers with
    the validation error or with the loaded declaration), a validation error
    is raised again as a [YamlParseDictError] on [self.yaml.path], [self.key]
    and the entry, and a loaded declaration is handed to the kind's reader. *)
Section ReaderParse.
Context {TimeGranularity MetricType : Type}.
Context `{!StrEnum TimeGranularity} `{!StrEnum MetricType}.
Variable calculate_node_config :
  bool → Dict → list string → NodeType.t → string → bool → Dict → outcome ConfigObj.
Variable finalize_and_validate : ConfigObj → outcome ConfigObj.
Variable get_fqn_prefix : string → list string.
Variable get_rendered :
  string → Manifest TimeGranularity MetricType → string → Exposure.t → outcome Captured.

Definition parse_entries {U : Type} (load : Dict → string + U)
    (parse_one : Reader → U → M (World TimeGranularity MetricType) unit)
    (self : Reader) (key : string) (get_key_dicts : list Dict)
    : M (World TimeGranularity MetricType) unit :=
  for_each get_key_dicts
    (λ data,
       match load data with
       | inl exc => raise (YamlParseDictError (path (yaml self)) key data exc)
       | inr unparsed => parse_one self unparsed
       end).

Definition ExposureParser_parse (load : Dict → string + UnparsedExposure.t) :=
  parse_entries load
    (parse_exposure calculate_node_config finalize_and_validate get_fqn_prefix get_rendered).

Definition MetricParser_parse (load : Dict → string + UnparsedMetric.t) :=
  parse_entries load
    (parse_metric calculate_node_config finalize_and_validate get_fqn_prefix).


Definition SemanticModelParser_parse (load : Dict → string + UnparsedSemanticModel.t)
    (self : Reader) :=
  parse_entries load (parse_semantic_model (MetricType := MetricType) get_fqn_prefix)
    self "semantic_models".
End ReaderParse.

(** *** [CompileTask.task_end_messages]

    The events the method fires, in the order it fires them.
    [self.selection_arg] is [None] or a sequence; what its first element is
    (a string, a sequence of names) the sources do not say, so the test
    [result.node.name in self.selection_arg[0]] is a parameter.  [output] is
    the attribute [args.output], [None] when it is missing. *)
Inductive EndEvent :=
| Note (msg : string)
| CompiledNode (node_name : string) (compiled : option string) (is_inline : bool)
    (output_format : string) (unique_id : string).

Section TaskEndMessages.
Context {Selection : Type}.
Variable name_in : string → Selection → bool.

Definition compiled_event (is_inline : bool) (output_format : string) (result : RunResult.t)
    : EndEvent :=
  CompiledNode (SqlNode.name (RunResult.node result))
    (SqlNode.compiled_code (RunResult.node result)) is_inline output_format
    (SqlNode.unique_id (RunResult.node result)).

Definition task_end_messages (args : Args) (output : option string)
    (selection_arg : option (list Selection)) (results : list RunResult.t) : list EndEvent :=
  let is_inline := truthy_str (inline args) in
  let output_format := default "text" output in
  let '(fired, matched_results) :=
    if is_inline then
      ([], List.filter
             (λ result, String.eqb (SqlNode.name (RunResult.node result)) "inline_query")
             results)
    else
      match selection_arg with
      | Some (first :: _) =>
          fold_left
            (λ '(fired, matched_results) result,
               if name_in (SqlNode.name (RunResult.node result)) first
               then (fired, matched_results ++ [result])
               else (fired ++
                     [Note ("Excluded node '" +:+ SqlNode.name (RunResult.node result) +:+
                            "' from results")],
                     matched_results))
            results ([], [])
      | _ =>
          (* No selector passed, compiling all nodes *)
          ([], [])
      end in
  fired ++ (compiled_event is_inline output_format <$> matched_results).
End TaskEndMessages.

(** *** Words for the further properties *)

(** A string without a dot. *)
Definition no_dot (s : string) : Prop :=
  Py.all_chars (λ c, negb (Ascii.eqb c ".")) s = true.

(** The name a metric input goes by, and its fully specified form: a bare
    string stands for an input with that name and nothing else. *)
Definition metric_input_name (u : StrOr UnparsedMetricInput.t) : string :=
  match u with
  | IsStr s => s
  | IsObj u => UnparsedMetricInput.name u
  end.

Definition spelled_out_input (u : StrOr UnparsedMetricInput.t) : StrOr UnparsedMetricInput.t :=
  match u with
  | IsStr s =>
      IsObj {| UnparsedMetricInput.name := s;
               UnparsedMetricInput.filter := None;
               UnparsedMetricInput.alias := None;
               UnparsedMetricInput.offset_window := None;
               UnparsedMetricInput.offset_to_grain := None |}
  | IsObj u => IsObj u
  end.

Definition spelled_out_measure (u : StrOr UnparsedMetricInputMeasure.t)
    : StrOr UnparsedMetricInputMeasure.t :=
  match u with
  | IsStr s =>
      IsObj {| UnparsedMetricInputMeasure.name := s;
               UnparsedMetricInputMeasure.filter := None;
               UnparsedMetricInputMeasure.alias := None |}
  | IsObj u => IsObj u
  end.

(** An event of a reader is a registration. *)
Definition is_registration (e : Event) : bool :=
  match e with
  | NodeRegistered _ _ => true
  | ConfigResolved _ _ _ _ => false
  end.

(** Entries for the examples: a group is loaded from its [name], anything
    else is refused. *)
Definition example_load_group (data : Dict) : string + UnparsedGroup.t :=
  match data !! "name" with
  | Some (VStr name) => inr {| UnparsedGroup.name := name; UnparsedGroup.owner := ∅ |}
  | _ => inl "'name' is a required property"
  end.

Definition group_entry (name : string) : Dict := {[ "name" := VStr name ]}.

Definition nameless_entry : Dict := {[ "owner" := VStr "nobody" ]}.

(** Type parameters for the examples, with a given [grain_to_date] and
    window. *)
Definition example_type_params (grain_to_date window : option string)
    : UnparsedMetricTypeParams.t :=
  {| UnparsedMetricTypeParams.measure := None;
     UnparsedMetricTypeParams.measures := None;
     UnparsedMetricTypeParams.numerator := None;
     UnparsedMetricTypeParams.denominator := None;
     UnparsedMetricTypeParams.expr := None;
     UnparsedMetricTypeParams.window := window;
     UnparsedMetricTypeParams.grain_to_date := grain_to_date;
     UnparsedMetricTypeParams.metrics := Some [IsStr "revenue"] |}.

Definition revenue_input : MetricInput.t CalendarGranularity :=
  {| MetricInput.name := "revenue";
     MetricInput.filter := None;
     MetricInput.alias := None;
     MetricInput.offset_window := None;
     MetricInput.offset_to_grain := None |}.

(** A metric whose window names no granularity, read in an empty world. *)
Definition bad_window_metric : UnparsedMetric.t :=
  {| UnparsedMetric.name := "ratio_metric";
     UnparsedMetric.label := "Ratio";
     UnparsedMetric.type := "cumulative";
     UnparsedMetric.type_params := example_type_params None (Some "7 dayz");
     UnparsedMetric.description := "";
     UnparsedMetric.filter := None;
     UnparsedMetric.meta := ∅;
     UnparsedMetric.tags := [];
     UnparsedMetric.config := ∅ |}.

Definition read_bad_window_metric : outcome unit * CalendarWorld :=
  parse_metric example_calculate_node_config example_finalize_and_validate
    example_get_fqn_prefix example_reader bad_window_metric empty_world.

(** More tasks and collaborators for the examples: a task that records a
    node its manifest does not hold, the task [inline_task] becomes once
    initialized, a [process_node] that fails, a selection by exact name. *)
Definition stale_task : CompileTask.t CalendarGranularity SimpleMetricType :=
  {| CompileTask.class := CompileTaskClass;
     CompileTask.args := {| select := None; inline := Some "select 1" |};
     CompileTask.manifest := empty_manifest;
     CompileTask._inline_node_id := Some "sql_operation.jaffle.inline_query";
     CompileTask.node_results := [];
     CompileTask.fired := [] |}.

Definition initialized_task : CompileTask.t CalendarGranularity SimpleMetricType :=
  (CompileTask._runtime_initialize example_parse_remote example_process_node
     base_runtime_initialize inline_task).2.

Definition failing_process_node {TG MT} (node : SqlNode.t) : M (Manifest TG MT) unit :=
  raise (CompilationError "depends on a node named 'orders' which was not found").

Definition derived_task : CompileTask.t CalendarGranularity SimpleMetricType :=
  {| CompileTask.class := DerivedClass "ShowTask";
     CompileTask.args := {| select := Some ["staging"]; inline := None |};
     CompileTask.manifest := empty_manifest;
     CompileTask._inline_node_id := None;
     CompileTask.node_results := [];
     CompileTask.fired := [] |}.

Definition name_is (name selection : string) : bool := String.eqb name selection.

Definition select_args : Args := {| select := Some ["staging"]; inline := None |}.

(** * Properties *)

(** ** The monad *)

Lemma bind_Return {W A B} (m : M W A) (k : A → M W B) w a w' :
  m w = (Return a, w') → (m ≫= k) w = k a w'.
Proof. intros Hm. unfold mbind, M_bind, bind. by rewrite Hm. Qed.

Lemma bind_Raise {W A B} (m : M W A) (k : A → M W B) w e w' :
  m w = (Raise e, w') → (m ≫= k) w = (Raise e, w').
Proof. intros Hm. unfold mbind, M_bind, bind. by rewrite Hm. Qed.

Lemma bind_inv_Return {W A B} (m : M W A) (k : A → M W B) w b w'' :
  (m ≫= k) w = (Return b, w'') →
  ∃ a w', m w = (Return a, w') ∧ k a w' = (Return b, w'').
Proof.
  unfold mbind, M_bind, bind. destruct (m w) as [[a|e] w'] eqn:Hm; [eauto | discriminate].
Qed.

(** ** Python strings *)

Lemma split_token s : is_token s → Py.split " " s = [s].
Proof.
  unfold is_token. induction s as [|c s IH]; [done|]. simpl.
  intros [Hc Hs]%andb_prop. apply negb_true_iff in Hc. rewrite Hc, (IH Hs). done.
Qed.

Lemma split_token_space a b :
  is_token a → Py.split " " (a +:+ String " " b) = a :: Py.split " " b.
Proof.
  unfold is_token. induction a as [|c a IH]; [done|]. simpl.
  intros [Hc Ha]%andb_prop. apply negb_true_iff in Hc.
  change (String c a +:+ String " " b) with (String c (a +:+ String " " b)).
  simpl. rewrite Hc, (IH Ha). done.
Qed.

Lemma split_two a b :
  is_token a → is_token b → Py.split " " (a +:+ " " +:+ b) = [a; b].
Proof.
  intros Ha Hb. change (" " +:+ b) with (String " " b).
  by rewrite split_token_space, split_token.
Qed.







(** ** Enumerations *)




(** ** The time-window parser *)

Section TimeWindowCases.
Context {TimeGranularity MetricType : Type}.
Context `{!StrEnum TimeGranularity} `{!StrEnum MetricType}.
Implicit Types (self : Reader) (st : World TimeGranularity MetricType).

(** The window has other than two space-separated tokens. *)
Lemma window_token_count self w st :
  length (Py.split " " w) ≠ 2%nat →
  _get_time_window self (Some w) st = (Raise (invalid_window_error self w), st).
Proof.
  intros Hlen. unfold _get_time_window.
  destruct (Py.split " " w) as [|a [|b [|c l]]]; try done.
Qed.

(** Two tokens, the second one no granularity. *)
Lemma window_unknown_granularity self count granularity st :
  is_token count → is_token granularity →
  strip_one_s granularity ∉ enum_values (E := TimeGranularity) →
  _get_time_window self (Some (count +:+ " " +:+ granularity)) st =
  (Raise (invalid_granularity_error self (strip_one_s granularity)
            (count +:+ " " +:+ granularity)), st).
Proof.
  intros Hc Hg Hnot. unfold _get_time_window. rewrite (split_two _ _ Hc Hg).
  fold (strip_one_s granularity). unfold Py.contains.
  by rewrite bool_decide_eq_false_2.
Qed.

(** Two tokens, a granularity, and a count on which [isdigit] fails. *)
Lemma window_count_not_digits self count granularity st :
  is_token count → is_token granularity →
  strip_one_s granularity ∈ enum_values (E := TimeGranularity) →
  Py.isdigit count = false →
  _get_time_window self (Some (count +:+ " " +:+ granularity)) st =
  (Raise (invalid_count_error self count (count +:+ " " +:+ granularity)), st).
Proof.
  intros Hc Hg Hin Hd. unfold _get_time_window. rewrite (split_two _ _ Hc Hg).
  fold (strip_one_s granularity). unfold Py.contains.
  by rewrite bool_decide_eq_true_2, Hd.
Qed.

(** Two tokens, a granularity, and a count that [isdigit] accepts although
    it is no run of decimal digits: [int] raises, not the parser. *)
Lemma window_count_digits_not_decimal self count granularity st :
  is_token count → is_token granularity →
  strip_one_s granularity ∈ enum_values (E := TimeGranularity) →
  Py.isdigit count = true → Py.isdecimal count = false →
  _get_time_window self (Some (count +:+ " " +:+ granularity)) st =
  (Raise (ValueError ("invalid literal for int() with base 10: '" +:+ count +:+ "'")), st).
Proof.
  intros Hc Hg Hin Hd Hdec. unfold _get_time_window. rewrite (split_two _ _ Hc Hg).
  fold (strip_one_s granularity). unfold Py.contains.
  rewrite bool_decide_eq_true_2, Hd by done. simpl.
  unfold mbind, M_bind, bind, int_call, Py.int. by rewrite Hdec.
Qed.


Lemma window_none self st : _get_time_window self None st = (Return None, st).
Proof. done. Qed.

(** The parser leaves the world as it found it, whatever it returns or
    raises. *)
Lemma _get_time_window_pure self w st : (_get_time_window self w st).2 = st.
Proof.
  unfold _get_time_window. destruct w as [w|]; [|done].
  destruct (Py.split " " w) as [|a [|b [|c l]]]; try done.
  destruct (negb _); [done|]. destruct (negb _); [done|].
  unfold mbind, M_bind, bind, int_call, enum_call.
  destruct (Py.int a); [|done]. unfold ret at 1.
  destruct (enum_of_value _); done.
Qed.

End TimeWindowCases.





(** The malformed windows that the parser does reject with its own error:
    a wrong number of tokens, an unknown granularity, a count on which
    [isdigit] fails. *)
Lemma get_time_window_rejects_malformed
    {TG MT : Type} `{!StrEnum TG} `{!StrEnum MT} (self : Reader) (st : World TG MT) :
  (∀ w, length (Py.split " " w) ≠ 2%nat →
        _get_time_window self (Some w) st = (Raise (invalid_window_error self w), st))
  ∧ (∀ count granularity,
       is_token count → is_token granularity →
       strip_one_s granularity ∉ enum_values (E := TG) →
       _get_time_window self (Some (count +:+ " " +:+ granularity)) st =
       (Raise (invalid_granularity_error self (strip_one_s granularity)
                 (count +:+ " " +:+ granularity)), st))
  ∧ (∀ count granularity,
       is_token count → is_token granularity →
       strip_one_s granularity ∈ enum_values (E := TG) →
       Py.isdigit count = false →
       _get_time_window self (Some (count +:+ " " +:+ granularity)) st =
       (Raise (invalid_count_error self count (count +:+ " " +:+ granularity)), st)).
Proof.
  split; [|split].
  - intros w. apply window_token_count.
  - intros count granularity. apply window_unknown_granularity.
  - intros count granularity. apply window_count_not_digits.
Qed.

(** C3.  The two malformed windows the claim names fail as it says: [7 dayz]
    with the granularity error and [seven days] with the count error.  A
    count made of a superscript digit (U+00B2) is not composed of decimal
    digits, yet [isdigit] accepts it: the window [U+00B2 days] passes the
    parser's checks and [int] raises [ValueError], which is no parse error. *)
Theorem get_time_window_superscript_count :
  ∀ (self : Reader) (st : CalendarWorld),
    _get_time_window self (Some "7 dayz") st =
      (Raise (invalid_granularity_error self "dayz" "7 dayz"), st)
    ∧ _get_time_window self (Some "seven days") st =
      (Raise (invalid_count_error self "seven" "seven days"), st)
    ∧ ¬ decimal_digits (String "178" "")
    ∧ _get_time_window self (Some (String "178" " days")) st =
      (Raise (ValueError ("invalid literal for int() with base 10: '" +:+
                          String "178" "" +:+ "'")), st)
    ∧ (∀ p key data cause,
         (_get_time_window self (Some (String "178" " days")) st).1 ≠
         Raise (YamlParseDictError p key data cause)).
Proof.
  intros self st.
  assert (Hsup : _get_time_window self (Some (String "178" " days")) st =
            (Raise (ValueError ("invalid literal for int() with base 10: '" +:+
                                String "178" "" +:+ "'")), st)).
  { apply (window_count_digits_not_decimal self (String "178" "") "days" st); try done.
    compute_done. }
  split; [|split; [|split; [|split]]].
  - apply (window_unknown_granularity self "7" "dayz" st); try done. compute_done.
  - apply (window_count_not_digits self "seven" "days" st); try done. compute_done.
  - unfold decimal_digits. discriminate.
  - exact Hsup.
  - intros p key data cause. rewrite Hsup. discriminate.
Qed.

(** C8 as stated fails on the empty string, which is not [None]: it has one
    token and is rejected. *)
Lemma get_time_window_empty_string_raises :
  ¬ (∀ w : option string,
       w = None ∨ w = Some "" →
       (_get_time_window example_reader w (empty_world : CalendarWorld)).1 = Return None).
Proof.
  intros Hall. specialize (Hall (Some "") (or_intror eq_refl)).
  rewrite (window_token_count example_reader "" empty_world) in Hall by (simpl; lia).
  discriminate Hall.
Qed.

(** C8, amended.  A null window yields no time window and raises nothing;
    the empty string is not read as absent, it is rejected as a window that
    does not have two tokens. *)
Theorem get_time_window_absent :
  ∀ (TG MT : Type) (HTG : StrEnum TG) (HMT : StrEnum MT) (self : Reader) (st : World TG MT),
    _get_time_window self None st = (Return None, st)
    ∧ _get_time_window self (Some "") st = (Raise (invalid_window_error self ""), st).
Proof.
  intros TG MT HTG HMT self st. split; [done|].
  apply window_token_count. simpl. lia.
Qed.

(** C10.  In a two-token window whose count is not composed of decimal
    digits and whose granularity, one trailing [s] stripped, is no member of
    the enum, the granularity error is the one raised: the membership test
    comes before the digit test.  So it is for [seven dayz]. *)
Theorem get_time_window_granularity_error_first :
  (∀ (TG MT : Type) (HTG : StrEnum TG) (HMT : StrEnum MT)
     (self : Reader) (st : World TG MT) (count granularity : string),
     is_token count → is_token granularity →
     ¬ decimal_digits count →
     strip_one_s granularity ∉ enum_values (E := TG) →
     _get_time_window self (Some (count +:+ " " +:+ granularity)) st =
     (Raise (invalid_granularity_error self (strip_one_s granularity)
               (count +:+ " " +:+ granularity)), st))
  ∧ (∀ (self : Reader) (st : CalendarWorld),
       _get_time_window self (Some "seven dayz") st =
       (Raise (invalid_granularity_error self "dayz" "seven dayz"), st)).
Proof.
  split.
  - intros TG MT HTG HMT self st count granularity Hc Hg _ Hnot.
    by apply window_unknown_granularity.
  - intros self st.
    apply (window_unknown_granularity self "seven" "dayz" st); try done. compute_done.
Qed.

Lemma get_time_window_granularity_error_first_witness :
  _get_time_window example_reader (Some "x1 fortnights") (empty_world : CalendarWorld) =
  (Raise (invalid_granularity_error example_reader "fortnight" "x1 fortnights"), empty_world).
Proof.
  refine (proj1 get_time_window_granularity_error_first _ _ _ _
            example_reader empty_world "x1" "fortnights" _ _ _ _).
  - reflexivity.
  - reflexivity.
  - unfold decimal_digits. vm_compute. discriminate.
  - compute_done.
Defined.

(** ** The readers *)

Section ReaderProps.
Context {TimeGranularity MetricType : Type}.
Context `{!StrEnum TimeGranularity} `{!StrEnum MetricType}.
Variable calculate_node_config :
  bool → Dict → list string → NodeType.t → string → bool → Dict → outcome ConfigObj.
Variable finalize_and_validate : ConfigObj → outcome ConfigObj.
Variable get_fqn_prefix : string → list string.
Variable get_rendered :
  string → Manifest TimeGranularity MetricType → string → Exposure.t → outcome Captured.

#[local] Abbreviation W := (World TimeGranularity MetricType).
Implicit Types (self : Reader) (st : W).

Lemma generate_config_run resource_type target_config fqn package_name rendered st :
  generate_config calculate_node_config resource_type target_config fqn package_name
    rendered st =
  (calculate_node_config rendered ∅ fqn resource_type package_name false
     (dict_update ∅ target_config),
   {| manifest := manifest st;
      events := events st ++ [ConfigResolved rendered resource_type fqn package_name] |}).
Proof. reflexivity. Qed.

#[local] Abbreviation resolved' := (resolved calculate_node_config get_fqn_prefix).
#[local] Abbreviation registered' := (registered (TG := TimeGranularity) (MT := MetricType) get_fqn_prefix).

Lemma parse_exposure_returns self unparsed st st' :
  parse_exposure calculate_node_config finalize_and_validate get_fqn_prefix get_rendered
    self unparsed st = (Return tt, st') →
  ∃ c0 config u parsed,
    resolved' true NodeType.Exposure self (UnparsedExposure.name unparsed)
      (UnparsedExposure.config unparsed) = Return c0
    ∧ finalize_and_validate c0 = Return (ExposureConfigObj config)
    ∧ resolved' false NodeType.Exposure self (UnparsedExposure.name unparsed)
        (UnparsedExposure.config unparsed) = Return u
    ∧ Exposure.config parsed = config
    ∧ Exposure.unrendered_config parsed = u
    ∧ Exposure.name parsed = UnparsedExposure.name unparsed
    ∧ Exposure.unique_id parsed =
        unique_id_of NodeType.Exposure (project_name self) (UnparsedExposure.name unparsed)
    ∧ st' = registered' NodeType.Exposure self (UnparsedExposure.name unparsed)
              (exposure_enabled config) (ExposureNode parsed) st.
Proof.
  unfold parse_exposure, _generate_exposure_config, resolved, registered, fqn_of.
  unfold mbind, M_bind, bind. rewrite generate_config_run.
  destruct (calculate_node_config true _ _ _ _ _ _) as [c0|e] eqn:Hc0; [|discriminate].
  unfold lift at 1.
  destruct (finalize_and_validate c0) as [c|e] eqn:Hc; [|discriminate].
  rewrite generate_config_run.
  destruct (calculate_node_config false _ _ _ _ _ _) as [u|e] eqn:Hu; [|discriminate].
  destruct c as [config| | |]; try discriminate.
  unfold gets, lift. cbn [manifest events].
  destruct (get_rendered _ _ _ _) as [captured|e]; [|discriminate].
  cbn [Exposure.config].
  intros Hrun. exists c0, config, u.
  destruct (exposure_enabled config) eqn:Hen; cbn in Hrun;
    injection Hrun as <-;
    match goal with |- context [ExposureNode ?p] => exists p end;
    cbn; rewrite <- ?app_assoc; done.
Qed.

(** Building the type parameters of a metric touches nothing. *)
Lemma enum_call_pure {E} `{!StrEnum E} (v : string) st : (enum_call (E := E) v st).2 = st.
Proof. unfold enum_call. by destruct (enum_of_value v). Qed.

Lemma bind_pure {A B} (m : M W A) (k : A → M W B) st :
  (m st).2 = st → (∀ a, (k a st).2 = st) → ((m ≫= k) st).2 = st.
Proof.
  intros Hm Hk. unfold mbind, M_bind, bind.
  destruct (m st) as [[a|e] w]; simpl in Hm; subst; [apply Hk | done].
Qed.

Lemma optional_enum_pure {E} `{!StrEnum E} (o : option string) st :
  (match o with
   | Some g => g' ← enum_call (E := E) g; mret (Some g')
   | None => mret None
   end st).2 = st.
Proof.
  destruct o as [g|]; [|done].
  apply bind_pure; [apply enum_call_pure | done].
Qed.

Lemma _get_metric_inputs_loop_pure self us acc st :
  (_get_metric_inputs_loop self us acc st).2 = st.
Proof.
  revert acc. induction us as [|[s|u] us IH]; intros acc; simpl; [done|apply IH|].
  apply bind_pure; [apply optional_enum_pure|]. intros offset_to_grain.
  apply bind_pure; [apply _get_time_window_pure|]. intros offset_window.
  apply IH.
Qed.

Lemma _get_metric_type_params_pure self type_params st :
  (_get_metric_type_params self type_params st).2 = st.
Proof.
  unfold _get_metric_type_params.
  apply bind_pure; [apply optional_enum_pure|]. intros grain_to_date.
  apply bind_pure; [apply _get_time_window_pure|]. intros window.
  apply bind_pure; [|done].
  unfold _get_metric_inputs.
  destruct (UnparsedMetricTypeParams.metrics type_params) as [us|]; [|done].
  apply _get_metric_inputs_loop_pure.
Qed.

Lemma parse_metric_returns self unparsed st st' :
  parse_metric calculate_node_config finalize_and_validate get_fqn_prefix
    self unparsed st = (Return tt, st') →
  ∃ c0 config u parsed,
    resolved' true NodeType.Metric self (UnparsedMetric.name unparsed)
      (UnparsedMetric.config unparsed) = Return c0
    ∧ finalize_and_validate c0 = Return (MetricConfigObj config)
    ∧ resolved' false NodeType.Metric self (UnparsedMetric.name unparsed)
        (UnparsedMetric.config unparsed) = Return u
    ∧ Metric.config parsed = config
    ∧ Metric.unrendered_config parsed = u
    ∧ Metric.name parsed = UnparsedMetric.name unparsed
    ∧ Metric.unique_id parsed =
        unique_id_of NodeType.Metric (project_name self) (UnparsedMetric.name unparsed)
    ∧ st' = registered' NodeType.Metric self (UnparsedMetric.name unparsed)
              (metric_enabled config) (MetricNode parsed) st.
Proof.
  unfold parse_metric, _generate_metric_config, resolved, registered, fqn_of.
  unfold mbind, M_bind, bind. rewrite generate_config_run.
  destruct (calculate_node_config true _ _ _ _ _ _) as [c0|e] eqn:Hc0; [|discriminate].
  unfold lift at 1.
  destruct (finalize_and_validate c0) as [c|e] eqn:Hc; [|discriminate].
  rewrite generate_config_run.
  destruct (calculate_node_config false _ _ _ _ _ _) as [u|e] eqn:Hu; [|discriminate].
  unfold lift.
  destruct c as [|config| |]; try discriminate.
  match goal with |- context [enum_call ?v ?w] =>
    pose proof (enum_call_pure (E := MetricType) v w) as Ht;
    destruct (enum_call (E := MetricType) v w) as [[type|e] w1]
  end; simpl in Ht; subst; [|discriminate].
  match goal with |- context [_get_metric_type_params ?s ?tp ?w] =>
    pose proof (_get_metric_type_params_pure s tp w) as Hp;
    destruct (_get_metric_type_params s tp w) as [[type_params|e] w1]
  end; simpl in Hp; subst; [|discriminate].
  cbn [Metric.config].
  intros Hrun. exists c0, config, u.
  destruct (metric_enabled config) eqn:Hen; cbn in Hrun;
    injection Hrun as <-;
    match goal with |- context [MetricNode ?p] => exists p end;
    cbn; rewrite <- ?app_assoc; done.
Qed.



(** Groups and semantic models are registered as they are read: no config
    is resolved for them. *)
Lemma parse_group_run self unparsed st :
  ∃ parsed,
    Group.unique_id parsed =
      unique_id_of NodeType.Group (project_name self) (UnparsedGroup.name unparsed)
    ∧ parse_group self unparsed st =
      (Return tt,
       {| manifest := add_enabled (manifest st) (GroupNode parsed);
          events := events st ++ [NodeRegistered true (Group.unique_id parsed)] |}).
Proof. eexists. split; cycle 1; reflexivity. Qed.

Lemma parse_semantic_model_run self unparsed st :
  ∃ parsed,
    SemanticModel.unique_id parsed =
      unique_id_of NodeType.SemanticModel (project_name self)
        (UnparsedSemanticModel.name unparsed)
    ∧ parse_semantic_model get_fqn_prefix self unparsed st =
      (Return tt,
       {| manifest := add_enabled (manifest st) (SemanticModelNode parsed);
          events := events st ++ [NodeRegistered true (SemanticModel.unique_id parsed)] |}).
Proof. eexists. split; cycle 1; reflexivity. Qed.

End ReaderProps.

(** ** The manifest *)

Section ManifestProps.
Context {TG MT : Type}.
Implicit Types (m : Manifest TG MT) (n : GraphNode TG MT) (f : SourceFile).

Lemma add_enabled_in m n : in_enabled (add_enabled m n) n.
Proof. unfold in_enabled, add_enabled. cbn. apply lookup_insert_eq. Qed.

Lemma add_enabled_disabled m n : disabled (add_enabled m n) = disabled m.
Proof. done. Qed.

Lemma add_disabled_in m f n : in_disabled (add_disabled m f n) f n.
Proof.
  unfold in_disabled, add_disabled. cbn. eexists. split; [apply lookup_insert_eq|].
  apply elem_of_app. right. apply list_elem_of_singleton. done.
Qed.

Lemma add_disabled_nodes m f n : nodes (add_disabled m f n) = nodes m.
Proof. done. Qed.
End ManifestProps.

(** ** Registration of exposures and metrics *)

(** C1.  A parsed exposure or metric is registered according to the [enabled]
    flag of its resolved, finalized rendered config: when the flag is true the
    node enters the enabled partition and the disabled partition is left as
    it was; otherwise the node is appended to the disabled partition under
    its source file and the enabled partition is left as it was.  No node
    enters both. *)
Theorem parsed_node_registered_in_one_partition :
  ∀ (TG MT : Type) (HTG : StrEnum TG) (HMT : StrEnum MT)
    (calculate_node_config :
       bool → Dict → list string → NodeType.t → string → bool → Dict → outcome ConfigObj)
    (finalize_and_validate : ConfigObj → outcome ConfigObj)
    (get_fqn_prefix : string → list string)
    (get_rendered : string → Manifest TG MT → string → Exposure.t → outcome Captured)
    (self : Reader) (st st' : World TG MT),
    (∀ unparsed,
       parse_exposure calculate_node_config finalize_and_validate get_fqn_prefix get_rendered
         self unparsed st = (Return tt, st') →
       ∃ c0 config parsed,
         resolved calculate_node_config get_fqn_prefix true NodeType.Exposure self
           (UnparsedExposure.name unparsed) (UnparsedExposure.config unparsed) = Return c0
         ∧ finalize_and_validate c0 = Return (ExposureConfigObj config)
         ∧ Exposure.config parsed = config
         ∧ if exposure_enabled config
           then manifest st' = add_enabled (manifest st) (ExposureNode parsed)
                ∧ in_enabled (manifest st') (ExposureNode parsed)
                ∧ disabled (manifest st') = disabled (manifest st)
           else manifest st' = add_disabled (manifest st) (file (yaml self)) (ExposureNode parsed)
                ∧ in_disabled (manifest st') (file (yaml self)) (ExposureNode parsed)
                ∧ nodes (manifest st') = nodes (manifest st))
    ∧ (∀ unparsed,
         parse_metric calculate_node_config finalize_and_validate get_fqn_prefix
           self unparsed st = (Return tt, st') →
         ∃ c0 config parsed,
           resolved calculate_node_config get_fqn_prefix true NodeType.Metric self
             (UnparsedMetric.name unparsed) (UnparsedMetric.config unparsed) = Return c0
           ∧ finalize_and_validate c0 = Return (MetricConfigObj config)
           ∧ Metric.config parsed = config
           ∧ if metric_enabled config
             then manifest st' = add_enabled (manifest st) (MetricNode parsed)
                  ∧ in_enabled (manifest st') (MetricNode parsed)
                  ∧ disabled (manifest st') = disabled (manifest st)
             else manifest st' = add_disabled (manifest st) (file (yaml self)) (MetricNode parsed)
                  ∧ in_disabled (manifest st') (file (yaml self)) (MetricNode parsed)
                  ∧ nodes (manifest st') = nodes (manifest st)).
Proof.
  intros TG MT HTG HMT calc fin prefix rend self st st'. split; intros unparsed Hrun.
  - apply parse_exposure_returns in Hrun
      as (c0 & config & u & parsed & Hc0 & Hc & _ & Hcfg & _ & _ & _ & ->).
    exists c0, config, parsed. repeat (split; [done|]).
    unfold registered. destruct (exposure_enabled config); cbn [manifest].
    + split; [done|]. split; [apply add_enabled_in | done].
    + split; [done|]. split; [apply add_disabled_in | done].
  - apply parse_metric_returns in Hrun
      as (c0 & config & u & parsed & Hc0 & Hc & _ & Hcfg & _ & _ & _ & ->).
    exists c0, config, parsed. repeat (split; [done|]).
    unfold registered. destruct (metric_enabled config); cbn [manifest].
    + split; [done|]. split; [apply add_enabled_in | done].
    + split; [done|]. split; [apply add_disabled_in | done].
Qed.

Lemma parsed_node_registered_in_one_partition_witness :
  ∃ c0 config parsed,
    resolved example_calculate_node_config example_get_fqn_prefix true NodeType.Exposure
      example_reader "weekly_kpis" disabled_config = Return c0
    ∧ example_finalize_and_validate c0 = Return (ExposureConfigObj config)
    ∧ Exposure.config parsed = config
    ∧ if exposure_enabled config
      then manifest (read_example_exposure disabled_config).2 =
             add_enabled empty_manifest (ExposureNode parsed)
           ∧ in_enabled (manifest (read_example_exposure disabled_config).2)
               (ExposureNode parsed)
           ∧ disabled (manifest (read_example_exposure disabled_config).2) = ∅
      else manifest (read_example_exposure disabled_config).2 =
             add_disabled empty_manifest (file (yaml example_reader)) (ExposureNode parsed)
           ∧ in_disabled (manifest (read_example_exposure disabled_config).2)
               (file (yaml example_reader)) (ExposureNode parsed)
           ∧ nodes (manifest (read_example_exposure disabled_config).2) = ∅.
Proof.
  apply (proj1 (parsed_node_registered_in_one_partition
                  CalendarGranularity SimpleMetricType _ _
                  example_calculate_node_config example_finalize_and_validate
                  example_get_fqn_prefix example_get_rendered example_reader
                  empty_world (read_example_exposure disabled_config).2)
           (example_exposure disabled_config)).
  vm_compute. reflexivity.
Defined.

(** ** Config resolution per resource kind *)

(** C4 as stated fails for groups (and for semantic models): reading a group
    calls no config resolver at all. *)
Lemma parse_group_resolves_no_config :
  ¬ (∀ st' : CalendarWorld,
       parse_group example_reader example_group empty_world = (Return tt, st') →
       resolutions true (events st') = 1%nat ∧ resolutions false (events st') = 1%nat).
Proof.
  intros Hall.
  destruct (parse_group_run (TimeGranularity := CalendarGranularity)
              (MetricType := SimpleMetricType) example_reader example_group empty_world)
    as (parsed & _ & Hrun).
  destruct (Hall _ Hrun) as [Hrendered _]. cbn in Hrendered. discriminate Hrendered.
Qed.

(** C4, amended.  Reading an exposure or a metric resolves its config twice,
    once rendered and then once unrendered, before the node is registered:
    these are the only events of a successful reading, in this order.
    Reading a group or a semantic model resolves no config; the node is
    registered at once. *)
Theorem config_resolved_twice_for_exposures_and_metrics :
  ∀ (TG MT : Type) (HTG : StrEnum TG) (HMT : StrEnum MT)
    (calculate_node_config :
       bool → Dict → list string → NodeType.t → string → bool → Dict → outcome ConfigObj)
    (finalize_and_validate : ConfigObj → outcome ConfigObj)
    (get_fqn_prefix : string → list string)
    (get_rendered : string → Manifest TG MT → string → Exposure.t → outcome Captured)
    (self : Reader) (st : World TG MT),
    (∀ unparsed st',
       parse_exposure calculate_node_config finalize_and_validate get_fqn_prefix get_rendered
         self unparsed st = (Return tt, st') →
       ∃ enabled unique_id,
         events st' =
         events st ++
         [ConfigResolved true NodeType.Exposure
            (fqn_of get_fqn_prefix self (UnparsedExposure.name unparsed)) (project_name self);
          ConfigResolved false NodeType.Exposure
            (fqn_of get_fqn_prefix self (UnparsedExposure.name unparsed)) (project_name self);
          NodeRegistered enabled unique_id])
    ∧ (∀ unparsed st',
         parse_metric calculate_node_config finalize_and_validate get_fqn_prefix
           self unparsed st = (Return tt, st') →
         ∃ enabled unique_id,
           events st' =
           events st ++
           [ConfigResolved true NodeType.Metric
              (fqn_of get_fqn_prefix self (UnparsedMetric.name unparsed)) (project_name self);
            ConfigResolved false NodeType.Metric
              (fqn_of get_fqn_prefix self (UnparsedMetric.name unparsed)) (project_name self);
            NodeRegistered enabled unique_id])
    ∧ (∀ unparsed,
         ∃ st' unique_id,
           parse_group self unparsed st = (Return tt, st')
           ∧ events st' = events st ++ [NodeRegistered true unique_id])
    ∧ (∀ unparsed,
         ∃ st' unique_id,
           parse_semantic_model get_fqn_prefix self unparsed st = (Return tt, st')
           ∧ events st' = events st ++ [NodeRegistered true unique_id]).
Proof.
  intros TG MT HTG HMT calc fin prefix rend self st. repeat split.
  - intros unparsed st' Hrun.
    apply parse_exposure_returns in Hrun as (c0 & config & u & parsed & Hrest).
    destruct Hrest as (_ & _ & _ & _ & _ & _ & _ & ->). by eexists _, _.
  - intros unparsed st' Hrun.
    apply parse_metric_returns in Hrun as (c0 & config & u & parsed & Hrest).
    destruct Hrest as (_ & _ & _ & _ & _ & _ & _ & ->). by eexists _, _.
  - intros unparsed.
    destruct (parse_group_run (MetricType := MT) self unparsed st) as (parsed & _ & Hrun).
    by eexists _, _.
  - intros unparsed.
    destruct (parse_semantic_model_run (MetricType := MT) prefix self unparsed st)
      as (parsed & _ & Hrun).
    by eexists _, _.
Qed.

Lemma config_resolved_twice_for_exposures_and_metrics_witness :
  ∃ enabled unique_id,
    events (read_example_metric ∅).2 =
    events (empty_world : CalendarWorld) ++
    [ConfigResolved true NodeType.Metric
       (fqn_of example_get_fqn_prefix example_reader "ratio_metric") "jaffle";
     ConfigResolved false NodeType.Metric
       (fqn_of example_get_fqn_prefix example_reader "ratio_metric") "jaffle";
     NodeRegistered enabled unique_id].
Proof.
  apply (proj1 (proj2 (config_resolved_twice_for_exposures_and_metrics
                         CalendarGranularity SimpleMetricType _ _
                         example_calculate_node_config example_finalize_and_validate
                         example_get_fqn_prefix example_get_rendered example_reader
                         empty_world))
           (example_metric ∅) (read_example_metric ∅).2).
  vm_compute. reflexivity.
Defined.

(** ** A rendered config of the wrong class *)



(** ** The common-identifiers rule *)

Section CommonIdentifiers.
Import CommonIdentifiersRule.

(** The two loops of the rule visit the declarations in order. *)
Lemma nested_fold_declarations {S} (step : S → Entity.t → Identifier.t → S)
    (entities : list Entity.t) (acc : S) :
  fold_left
    (λ acc entity,
       fold_left (λ acc identifier, step acc entity identifier)
         (or_empty (Entity.identifiers entity)) acc)
    entities acc =
  fold_left (λ acc d, step acc d.1 d.2)
    (entities ≫= λ entity, (λ identifier, (entity, identifier)) <$>
                             or_empty (Entity.identifiers entity))
    acc.
Proof.
  revert acc. induction entities as [|entity entities IH]; intros acc; [done|].
  rewrite bind_cons, fold_left_app. cbn [fold_left]. rewrite IH. f_equal.
  generalize (or_empty (Entity.identifiers entity)). intros ids. revert acc.
  induction ids as [|i ids IHi]; intros acc; [done|]. apply IHi.
Qed.

Lemma fold_left_append_bind {A B} (f : A → list B) (l : list A) (acc : list B) :
  fold_left (λ acc x, acc ++ f x) l acc = acc ++ (l ≫= f).
Proof.
  revert acc. induction l as [|x l IH]; intros acc; cbn [fold_left].
  - by rewrite app_nil_r.
  - rewrite IH, bind_cons. by rewrite app_assoc.
Qed.

Lemma _map_entity_identifiers_declarations model :
  _map_entity_identifiers (UserConfiguredModel.entities model) =
  fold_left (λ d decl, index_step d decl.1 decl.2) (declarations model) ∅.
Proof. apply (nested_fold_declarations index_step). Qed.

Lemma validate_model_declarations model :
  validate_model model =
  declarations model ≫=
    λ decl, _check_identifier decl.2 decl.1
              (_map_entity_identifiers (UserConfiguredModel.entities model)).
Proof.
  unfold validate_model.
  rewrite (nested_fold_declarations
             (λ issues entity identifier,
                issues ++ _check_identifier identifier entity
                            (_map_entity_identifiers (UserConfiguredModel.entities model)))).
  apply (fold_left_append_bind
           (λ decl, _check_identifier decl.2 decl.1
                      (_map_entity_identifiers (UserConfiguredModel.entities model)))).
Qed.

Lemma index_step_lookup d entity identifier r :
  index_step d entity identifier !! r =
  if decide (Identifier.reference identifier = r)
  then Some (default ∅ (d !! r) ∪ {[Entity.name entity]})
  else d !! r.
Proof.
  unfold index_step. case_decide as Hr.
  - subst r. destruct (d !! Identifier.reference identifier) as [names|];
      rewrite lookup_insert_eq; [done|]. cbn. by rewrite (left_id_L ∅ (∪)).
  - destruct (d !! Identifier.reference identifier); by rewrite lookup_insert_ne.
Qed.

(** The index holds, for a reference, exactly the names of the entities
    that declare it. *)
Lemma index_names (decls : list (Entity.t * Identifier.t)) r x :
  x ∈ default ∅ (fold_left (λ d decl, index_step d decl.1 decl.2) decls ∅ !! r) ↔
  ∃ entity identifier,
    (entity, identifier) ∈ decls
    ∧ Identifier.reference identifier = r ∧ Entity.name entity = x.
Proof.
  induction decls as [|[e i] decls IH] using rev_ind.
  - cbn. rewrite lookup_empty. cbn. split; [set_solver|].
    intros (? & ? & Hin & _). by apply elem_of_nil in Hin.
  - rewrite fold_left_app. cbn [fold_left fst snd]. rewrite index_step_lookup.
    case_decide as Hr; cbn [from_option id].
    + rewrite elem_of_union, IH, elem_of_singleton. split.
      * intros [(e' & i' & Hin & Hr' & Hx)|Hx].
        -- exists e', i'. rewrite elem_of_app. auto.
        -- exists e, i. rewrite elem_of_app, list_elem_of_singleton. auto.
      * intros (e' & i' & [Hin|Hin%list_elem_of_singleton]%elem_of_app & Hr' & Hx).
        -- left. eauto.
        -- right. by simplify_eq.
    + rewrite IH. split.
      * intros (e' & i' & Hin & Hr' & Hx). exists e', i'. rewrite elem_of_app. auto.
      * intros (e' & i' & [Hin|Hin%list_elem_of_singleton]%elem_of_app & Hr' & Hx).
        -- eauto.
        -- by simplify_eq.
Qed.

Lemma index_declared (decls : list (Entity.t * Identifier.t)) entity identifier :
  (entity, identifier) ∈ decls →
  is_Some (fold_left (λ d decl, index_step d decl.1 decl.2) decls ∅
             !! Identifier.reference identifier).
Proof.
  intros Hin.
  assert (Entity.name entity ∈
          default ∅ (fold_left (λ d decl, index_step d decl.1 decl.2) decls ∅
                       !! Identifier.reference identifier)) as Hx.
  { apply index_names. eauto. }
  destruct (fold_left _ decls ∅ !! Identifier.reference identifier); [done|].
  cbn in Hx. set_solver.
Qed.

(** *** The warning determines the reference it was emitted for *)

Lemma app_String c s t : String c s +:+ t = String c (s +:+ t).
Proof. reflexivity. Qed.

Lemma string_length_app s t :
  String.length (s +:+ t) = (String.length s + String.length t)%nat.
Proof. induction s as [|c s IH]; [done|]. rewrite app_String. cbn. by rewrite IH. Qed.

Lemma app_inv_suffix s1 s2 t : s1 +:+ t = s2 +:+ t → s1 = s2.
Proof.
  revert s2. induction s1 as [|c s1 IH]; intros [|c' s2] Heq; [done|..].
  - apply (f_equal String.length) in Heq. rewrite !string_length_app in Heq.
    cbn in Heq. lia.
  - apply (f_equal String.length) in Heq. rewrite !string_length_app in Heq.
    cbn in Heq. lia.
  - rewrite !app_String in Heq. injection Heq as -> Heq. f_equal. by apply IH.
Qed.

Lemma only_one_entity_warning_inj identifier entity identifier' entity' :
  only_one_entity_warning identifier entity = only_one_entity_warning identifier' entity' →
  Identifier.reference identifier = Identifier.reference identifier'
  ∧ Identifier.name identifier = Identifier.name identifier'
  ∧ Entity.name entity = Entity.name entity'.
Proof.
  unfold only_one_entity_warning, only_one_entity_message.
  intros [= Hentity Hname Hmessage]. rewrite Hentity in Hmessage.
  apply (inj (String.app _)), app_inv_suffix in Hmessage.
  destruct (Identifier.reference identifier), (Identifier.reference identifier').
  cbn in Hmessage. by subst.
Qed.

(** *** What the check of one declaration emits *)

Lemma _check_identifier_only model entity identifier :
  (entity, identifier) ∈ declarations model →
  (∀ entity' identifier',
     (entity', identifier') ∈ declarations model →
     Identifier.reference identifier' = Identifier.reference identifier →
     Entity.name entity' = Entity.name entity) →
  _check_identifier identifier entity
    (_map_entity_identifiers (UserConfiguredModel.entities model)) =
  [only_one_entity_warning identifier entity].
Proof.
  intros Hin Honly. unfold _check_identifier.
  rewrite _map_entity_identifiers_declarations.
  destruct (index_declared _ _ _ Hin) as [names Hnames]. rewrite Hnames.
  rewrite bool_decide_eq_true_2; [done|].
  apply size_empty_iff. intros x. split; [|set_solver].
  intros [Hx Hne]%elem_of_difference. exfalso. apply Hne, elem_of_singleton.
  assert (x ∈ default ∅ (fold_left (λ d decl, index_step d decl.1 decl.2)
                           (declarations model) ∅ !! Identifier.reference identifier))
    as Hx' by (by rewrite Hnames).
  apply index_names in Hx' as (entity' & identifier' & Hin' & Hr & <-). eauto.
Qed.

Lemma _check_identifier_shared model entity identifier entity' identifier' :
  (entity', identifier') ∈ declarations model →
  Identifier.reference identifier' = Identifier.reference identifier →
  Entity.name entity' ≠ Entity.name entity →
  _check_identifier identifier entity
    (_map_entity_identifiers (UserConfiguredModel.entities model)) = [].
Proof.
  intros Hin Hr Hne. unfold _check_identifier.
  rewrite _map_entity_identifiers_declarations.
  destruct (fold_left _ (declarations model) ∅ !! Identifier.reference identifier)
    as [names|] eqn:Hnames; [|done].
  rewrite bool_decide_eq_false_2; [done|].
  apply size_non_empty_iff. intros Hempty.
  assert (Entity.name entity' ∈
          default ∅ (fold_left (λ d decl, index_step d decl.1 decl.2)
                       (declarations model) ∅ !! Identifier.reference identifier))
    as Hx by (apply index_names; eauto).
  rewrite Hnames in Hx. cbn in Hx.
  apply (not_elem_of_empty (C := gset string) (Entity.name entity')).
  apply Hempty, elem_of_difference. split; [done|].
  by rewrite elem_of_singleton.
Qed.

Lemma _check_identifier_emits identifier entity d issue :
  issue ∈ _check_identifier identifier entity d →
  issue = only_one_entity_warning identifier entity
  ∧ _check_identifier identifier entity d = [only_one_entity_warning identifier entity].
Proof.
  unfold _check_identifier. destruct (d !! _) as [names|]; [|by intros ?%elem_of_nil].
  destruct (bool_decide _); [|by intros ?%elem_of_nil].
  cbn. by intros ->%list_elem_of_singleton.
Qed.

End CommonIdentifiers.

(** C6.  When an identifier is declared once in the model, on entity [A], the
    rule emits exactly one warning that references it, the one for [A] and
    that identifier.  When an identifier is declared on two entities of
    different names, the rule emits no issue that references it.  The two
    entity graphs of the specification's example give one warning and no issue. *)
Theorem common_identifiers_warns_once :
  (∀ model A foo before after,
     declarations model = before ++ (A, foo) :: after →
     (∀ entity identifier,
        (entity, identifier) ∈ before ++ after →
        Identifier.reference identifier ≠ Identifier.reference foo) →
     ∃ earlier later,
       CommonIdentifiersRule.validate_model model =
       earlier ++ CommonIdentifiersRule.only_one_entity_warning foo A :: later
       ∧ ∀ issue, issue ∈ earlier ++ later → ¬ references (Identifier.reference foo) issue)
  ∧ (∀ model A B foo foo',
       (A, foo) ∈ declarations model →
       (B, foo') ∈ declarations model →
       Identifier.reference foo' = Identifier.reference foo →
       Entity.name A ≠ Entity.name B →
       ∀ issue, issue ∈ CommonIdentifiersRule.validate_model model →
                ¬ references (Identifier.reference foo) issue)
  ∧ CommonIdentifiersRule.validate_model model_foo_on_A =
    [ValidationWarning
       {| entity_element := {| entity_name := "A"; element_name := "foo" |};
          element_type := IDENTIFIER |}
       "Identifier `foo` only found in one entity `A` which means it will be unused in joins."]
  ∧ CommonIdentifiersRule.validate_model model_foo_on_A_and_B = [].
Proof.
  split; [|split; [|split]].
  - intros model A foo before after Hdecls Hunique.
    rewrite validate_model_declarations, Hdecls, bind_app, bind_cons.
    cbn [fst snd].
    rewrite (_check_identifier_only model A foo).
    + eexists _, _. split; [reflexivity|].
      intros issue Hissue (entity' & identifier' & Hr' & ->).
      assert (∃ entity identifier,
                 (entity, identifier) ∈ before ++ after
                 ∧ CommonIdentifiersRule.only_one_entity_warning identifier' entity' ∈
                   CommonIdentifiersRule._check_identifier identifier entity
                     (CommonIdentifiersRule._map_entity_identifiers
                        (UserConfiguredModel.entities model)))
        as (entity & identifier & Hin & Hemit).
      { apply elem_of_app in Hissue as [Hissue|Hissue];
          apply list_elem_of_bind in Hissue as ([entity identifier] & Hemit & Hin);
          exists entity, identifier; rewrite elem_of_app; auto. }
      apply _check_identifier_emits in Hemit as [Heq _].
      apply only_one_entity_warning_inj in Heq as (Hr & _ & _).
      apply (Hunique entity identifier Hin). congruence.
    + rewrite Hdecls, elem_of_app, elem_of_cons. auto.
    + intros entity' identifier'. rewrite Hdecls, elem_of_app, elem_of_cons.
      intros [Hin|[[= -> ->]|Hin]] Hr; [|done|];
        destruct (Hunique entity' identifier'); rewrite ?elem_of_app; auto.
  - intros model A B foo foo' HA HB Hfoo Hnames issue Hissue
      (entity' & identifier' & Hr' & ->).
    rewrite validate_model_declarations in Hissue.
    apply list_elem_of_bind in Hissue as ([entity identifier] & Hemit & Hin).
    cbn [fst snd] in Hemit.
    apply _check_identifier_emits in Hemit as [Heq Hone].
    apply only_one_entity_warning_inj in Heq as (Hr & _ & _).
    destruct (decide (Entity.name A = Entity.name entity)) as [HAe|HAe].
    + rewrite (_check_identifier_shared model entity identifier B foo') in Hone;
        [discriminate|done|congruence|congruence].
    + rewrite (_check_identifier_shared model entity identifier A foo) in Hone;
        [discriminate|done|congruence|done].
  - vm_compute. reflexivity.
  - vm_compute. reflexivity.
Qed.

Lemma common_identifiers_warns_once_witness :
  ∃ earlier later,
    CommonIdentifiersRule.validate_model model_foo_bar =
    earlier ++ CommonIdentifiersRule.only_one_entity_warning identifier_foo entity_A_foo_bar
            :: later
    ∧ ∀ issue, issue ∈ earlier ++ later →
               ¬ references (Identifier.reference identifier_foo) issue.
Proof.
  apply (proj1 common_identifiers_warns_once model_foo_bar entity_A_foo_bar identifier_foo
           [] [(entity_A_foo_bar, identifier_bar); (entity_B_bar, identifier_bar)]).
  - reflexivity.
  - intros entity identifier Hin. cbn in Hin.
    apply elem_of_cons in Hin as [[= -> ->]|Hin]; [discriminate|].
    apply elem_of_cons in Hin as [[= -> ->]|Hin]; [discriminate|].
    by apply elem_of_nil in Hin.
Defined.

(** ** The compile task *)

Section CompileTaskProps.
Context {TG MT : Type}.
Variable parse_remote : string → string → M (Manifest TG MT) SqlNode.t.
Variable process_node : SqlNode.t → M (Manifest TG MT) unit.
Variable super_runtime_initialize : M (CompileTask.t TG MT) unit.
Variable super_after_run : string → list RunResult.t → M (CompileTask.t TG MT) unit.
Variable super_handle_result : RunResult.t → M (CompileTask.t TG MT) unit.

Implicit Types (self : CompileTask.t TG MT) (result : RunResult.t).

#[local] Abbreviation handle := (CompileTask._handle_result super_handle_result).
#[local] Abbreviation finalize := (CompileTask.after_run super_after_run).

(** What [_handle_result] adds to what the inherited handler did. *)
Lemma _handle_result_run result self :
  handle result self =
  match super_handle_result result self with
  | (Return _, self1) =>
      (Return tt,
       if SqlNode.is_ephemeral_model (RunResult.node result)
          && CompileTask.is_CompileTask (CompileTask.class self1)
          && (truthy_seq (select (CompileTask.args self1))
              || truthy_str (inline (CompileTask.args self1)))
       then CompileTask.append_node_result result self1
       else self1)
  | (Raise e, self1) => (Raise e, self1)
  end.
Proof.
  unfold CompileTask._handle_result, mbind, M_bind, bind.
  destruct (super_handle_result result self) as [[[]|e] self1]; [|done].
  unfold gets. cbn. by destruct (_ && _ && _).
Qed.



(** [after_run] retracts the node recorded by the task. *)
Lemma after_run_retracts adapter results self key :
  CompileTask._inline_node_id self = Some key → key ≠ "" →
  key ∈ dom (nodes (CompileTask.manifest self)) →
  (∀ self', dom (nodes (CompileTask.manifest (super_after_run adapter results self').2)) =
            dom (nodes (CompileTask.manifest self'))) →
  dom (nodes (CompileTask.manifest (finalize adapter results self).2)) =
  dom (nodes (CompileTask.manifest self)) ∖ {[key]}.
Proof.
  intros Hid Hkey Hin Hsuper.
  unfold CompileTask.after_run, mbind, M_bind, bind, gets. rewrite Hid.
  cbn [truthy_str]. apply String.eqb_neq in Hkey. rewrite Hkey. cbn [negb from_option id].
  unfold CompileTask.nodes_pop.
  apply elem_of_dom in Hin as [n Hn]. rewrite Hn. cbn.
  rewrite Hsuper. cbn. by rewrite dom_delete_L.
Qed.




(** C9.  The result of an ephemeral model handled by a [CompileTask] is
    added to [node_results] only when [args.select] or [args.inline] is
    set, and it is added then; that the node executed does not retain it.
    The inherited handler is taken to leave such a result out. *)
Theorem ephemeral_result_retained_only_when_selected result self :
  leaves_ephemeral_out super_handle_result →
  SqlNode.is_ephemeral_model (RunResult.node result) = true →
  CompileTask.class self = CompileTaskClass →
  (CompileTask.node_results (handle result self).2 = CompileTask.node_results self ++ [result]
   ∨ CompileTask.node_results (handle result self).2 = CompileTask.node_results self)
  ∧ (CompileTask.node_results (handle result self).2 =
       CompileTask.node_results self ++ [result] →
     truthy_seq (select (CompileTask.args self))
     || truthy_str (inline (CompileTask.args self)) = true)
  ∧ ((super_handle_result result self).1 = Return tt →
     truthy_seq (select (CompileTask.args self))
     || truthy_str (inline (CompileTask.args self)) = true →
     CompileTask.node_results (handle result self).2 =
       CompileTask.node_results self ++ [result]).
Proof.
  intros Hsuper Heph Hclass. rewrite _handle_result_run.
  destruct (Hsuper result self Heph) as (Hresults & Hargs & Hclass').
  destruct (super_handle_result result self) as [[[]|e] self1]; cbn in *.
  - rewrite Heph, Hclass', Hclass, Hargs. cbn.
    destruct (truthy_seq _ || truthy_str _); cbn; rewrite Hresults.
    + auto.
    + split; [auto|]. split; [|done].
      intros Heq. apply (f_equal length) in Heq. rewrite length_app in Heq.
      cbn in Heq. lia.
  - rewrite Hresults. split; [auto|]. split; [|done].
    intros Heq. apply (f_equal length) in Heq. rewrite length_app in Heq.
    cbn in Heq. lia.
Qed.

End CompileTaskProps.


Lemma base_handle_result_leaves_ephemeral_out {TG MT} :
  leaves_ephemeral_out (base_handle_result (TG := TG) (MT := MT)).
Proof. intros result self Heph. unfold base_handle_result. by rewrite Heph. Qed.


Lemma ephemeral_result_retained_only_when_selected_witness :
  (CompileTask.node_results
     (CompileTask._handle_result base_handle_result ephemeral_result inline_task).2 =
   CompileTask.node_results inline_task ++ [ephemeral_result]
   ∨ CompileTask.node_results
       (CompileTask._handle_result base_handle_result ephemeral_result inline_task).2 =
     CompileTask.node_results inline_task)
  ∧ (CompileTask.node_results
       (CompileTask._handle_result base_handle_result ephemeral_result inline_task).2 =
     CompileTask.node_results inline_task ++ [ephemeral_result] →
     truthy_seq (select (CompileTask.args inline_task))
     || truthy_str (inline (CompileTask.args inline_task)) = true)
  ∧ ((base_handle_result ephemeral_result inline_task).1 = Return tt →
     truthy_seq (select (CompileTask.args inline_task))
     || truthy_str (inline (CompileTask.args inline_task)) = true →
     CompileTask.node_results
       (CompileTask._handle_result base_handle_result ephemeral_result inline_task).2 =
     CompileTask.node_results inline_task ++ [ephemeral_result]).
Proof.
  apply (ephemeral_result_retained_only_when_selected base_handle_result
           ephemeral_result inline_task).
  - apply base_handle_result_leaves_ephemeral_out.
  - reflexivity.
  - reflexivity.
Defined.

(** The rule warns once per declaration: an identifier listed twice on its
    only entity is warned about twice. *)
Lemma validate_model_warns_per_declaration :
  CommonIdentifiersRule.validate_model model_foo_twice_on_A =
  [CommonIdentifiersRule.only_one_entity_warning identifier_foo entity_A;
   CommonIdentifiersRule.only_one_entity_warning identifier_foo entity_A].
Proof. vm_compute. reflexivity. Qed.

(** When the parse of the inline query raises a [CompilationError], the
    initialization fires [ParseInlineNodeError], raises [DbtException] and
    records no inline node; the inherited initialization is not reached. *)
Lemma runtime_initialize_parse_failure {TG MT}
    (parse_remote : string → string → M (Manifest TG MT) SqlNode.t)
    (process_node : SqlNode.t → M (Manifest TG MT) unit)
    (super_runtime_initialize : M (CompileTask.t TG MT) unit)
    (self : CompileTask.t TG MT) (sql msg : string) (m : Manifest TG MT) :
  inline (CompileTask.args self) = Some sql → sql ≠ "" →
  parse_remote sql "inline_query" (CompileTask.manifest self) = (Raise (CompilationError msg), m) →
  CompileTask._runtime_initialize parse_remote process_node super_runtime_initialize self =
  (Raise (DbtException "Error parsing inline query"),
   CompileTask.fire_event
     (ParseInlineNodeError msg "sql/inline_query" "inline_query"
        "sqloperation.test.inline_query" "failed")
     (CompileTask.set_manifest m self)).
Proof.
  intros Hinline Hsql Hparse.
  unfold CompileTask._runtime_initialize, mbind, M_bind, bind, gets.
  rewrite Hinline. cbn [truthy_str from_option id].
  apply String.eqb_neq in Hsql. rewrite Hsql. cbn [negb].
  unfold CompileTask.try_except_CompilationError, CompileTask.on_manifest.
  rewrite Hparse. reflexivity.
Qed.

(** * Further properties *)

(** ** [split] and [join] *)

Lemma split_nonempty sep s : Py.split sep s ≠ [].
Proof.
  destruct s as [|c s]; [done|]. simpl.
  destruct (Ascii.eqb c sep); [done|]. by destruct (Py.split sep s).
Qed.

Lemma split_app_sep a b :
  Py.split " " (a +:+ String " " b) = Py.split " " a ++ Py.split " " b.
Proof.
  induction a as [|c a IH]; [done|].
  change (String c a +:+ String " " b) with (String c (a +:+ String " " b)).
  simpl. rewrite IH. destruct (Ascii.eqb c " "); [done|].
  pose proof (split_nonempty " " a) as Hne. by destruct (Py.split " " a).
Qed.

Lemma join_cons_String c field fields :
  join " " (String c field :: fields) = String c (join " " (field :: fields)).
Proof. by destruct fields. Qed.

Lemma split_join s : join " " (Py.split " " s) = s.
Proof.
  induction s as [|c s IH]; [done|]. simpl.
  pose proof (split_nonempty " " s) as Hne.
  destruct (Ascii.eqb c " ") eqn:Hc.
  - apply Ascii.eqb_eq in Hc as ->.
    destruct (Py.split " " s) as [|field fields]; [done|]. by rewrite <- IH.
  - destruct (Py.split " " s) as [|field fields]; [done|].
    by rewrite join_cons_String, IH.
Qed.

Lemma split_fields_tokens s : Forall is_token (Py.split " " s).
Proof.
  induction s as [|c s IH]; [by repeat constructor|]. simpl.
  destruct (Ascii.eqb c " ") eqn:Hc; [by constructor|].
  pose proof (split_nonempty " " s) as Hne.
  destruct (Py.split " " s) as [|field fields]; [done|].
  apply Forall_cons in IH as [Hfield Hfields]. constructor; [|done].
  unfold is_token in *. simpl. by rewrite Hc, Hfield.
Qed.

Lemma split_two_inv w a b :
  Py.split " " w = [a; b] → w = a +:+ " " +:+ b ∧ is_token a ∧ is_token b.
Proof.
  intros Hsplit. pose proof (split_join w) as Hjoin.
  pose proof (split_fields_tokens w) as Htokens. rewrite Hsplit in Hjoin, Htokens.
  apply Forall_cons in Htokens as [Ha Hb%Forall_cons_1]. by destruct Hb.
Qed.

Lemma split_one_inv s x : Py.split " " s = [x] → x = s ∧ is_token s.
Proof.
  intros Hsplit. pose proof (split_join s) as Hjoin.
  pose proof (split_fields_tokens s) as Htokens. rewrite Hsplit in Hjoin, Htokens.
  cbn in Hjoin. subst x. by apply Forall_cons in Htokens as [? _].
Qed.

(** ** More on the time-window parser *)

Lemma int_acc_nonneg s acc :
  0 ≤ acc → Py.all_chars Py.is_decimal_char s = true → 0 ≤ Py.int_acc acc s.
Proof.
  revert acc. induction s as [|c s IH]; intros acc Hacc; [done|]. simpl.
  intros [Hc Hs]%andb_prop. apply IH; [|done].
  unfold Py.is_decimal_char in Hc. apply andb_prop in Hc as [Hlo _].
  apply Nat.leb_le in Hlo. unfold Py.digit_value. lia.
Qed.

Lemma enum_of_value_Some `{StrEnum E} (v : string) (g : E) :
  enum_of_value v = Some g → g ∈ enum_items ∧ enum_value g = v.
Proof.
  unfold enum_of_value. intros [Hin Heq]%find_some. split.
  - by apply list_elem_of_In.
  - by apply String.eqb_eq.
Qed.


Lemma int_Some count n :
  Py.int count = Some n → decimal_digits count ∧ n = Py.int_acc 0 count.
Proof.
  unfold Py.int, decimal_digits. destruct (Py.isdecimal count); [|done].
  by intros [= <-].
Qed.

Lemma decimal_digits_nonneg count : decimal_digits count → 0 ≤ Py.int_acc 0 count.
Proof.
  unfold decimal_digits, Py.isdecimal. destruct count as [|c count]; [done|].
  by apply int_acc_nonneg.
Qed.

(** The outcome of the parser on a non-null window, read off the fields of
    the window. *)
Lemma get_time_window_by_fields {TG MT : Type} `{!StrEnum TG} `{!StrEnum MT}
    (self : Reader) (st : World TG MT) (w : string) :
  _get_time_window self (Some w) st =
  match Py.split " " w with
  | [count; granularity] =>
      if Py.contains (strip_one_s granularity) (enum_values (E := TG)) then
        if Py.isdigit count then
          match Py.int count with
          | Some n =>
              match enum_of_value (strip_one_s granularity) with
              | Some g =>
                  (Return (Some {| MetricTimeWindow.count := n;
                                   MetricTimeWindow.granularity := g |}), st)
              | None =>
                  (Raise (ValueError ("'" +:+ strip_one_s granularity +:+
                                      "' is not a valid " +:+ enum_name (E := TG))), st)
              end
          | None =>
              (Raise (ValueError ("invalid literal for int() with base 10: '" +:+
                                  count +:+ "'")), st)
          end
        else (Raise (invalid_count_error self count w), st)
      else (Raise (invalid_granularity_error self (strip_one_s granularity) w), st)
  | _ => (Raise (invalid_window_error self w), st)
  end.
Proof.
  unfold _get_time_window.
  destruct (Py.split " " w) as [|count [|granularity [|extra fields]]]; try done.
  fold (strip_one_s granularity).
  destruct (Py.contains _ _); [|done]. destruct (Py.isdigit count); [|done]. cbn [negb].
  unfold mbind, M_bind, bind, int_call, enum_call.
  destruct (Py.int count); [|done]. unfold ret at 1.
  by destruct (enum_of_value _).
Qed.

(** X1.  Whenever the parser returns on a non-null window, it returns a
    window (never [None]), the input has the form [count granularity] with a
    count of decimal digits only, the count returned is its value and is not
    negative, the granularity returned is the member whose value is the
    second token with one trailing [s] stripped, and the world is as before. *)
Theorem get_time_window_returns_only_well_formed :
  ∀ (TG MT : Type) (HTG : StrEnum TG) (HMT : StrEnum MT)
    (self : Reader) (st st' : World TG MT) (w : string)
    (o : option (MetricTimeWindow.t TG)),
    _get_time_window self (Some w) st = (Return o, st') →
    ∃ count granularity g,
      o = Some {| MetricTimeWindow.count := Py.int_acc 0 count;
                  MetricTimeWindow.granularity := g |}
      ∧ w = count +:+ " " +:+ granularity
      ∧ decimal_digits count ∧ is_token granularity
      ∧ 0 ≤ Py.int_acc 0 count
      ∧ g ∈ enum_items ∧ enum_value g = strip_one_s granularity
      ∧ st' = st.
Proof.
  intros TG MT HTG HMT self st st' w o. rewrite get_time_window_by_fields.
  destruct (Py.split " " w) as [|count [|granularity [|extra fields]]] eqn:Hsplit;
    try discriminate.
  apply split_two_inv in Hsplit as (-> & _ & Hg).
  destruct (Py.contains _ _); [|discriminate].
  destruct (Py.isdigit count); [|discriminate].
  destruct (Py.int count) as [n|] eqn:Hint; [|discriminate].
  destruct (enum_of_value _) as [g|] eqn:Hg'; [|discriminate].
  intros [= <- <-]. apply int_Some in Hint as [Hdec ->].
  apply enum_of_value_Some in Hg' as [Hin Hval].
  exists count, granularity, g. repeat split; try done.
  by apply decimal_digits_nonneg.
Qed.

Lemma get_time_window_returns_only_well_formed_witness :
  ∃ count granularity g,
    Some {| MetricTimeWindow.count := 28; MetricTimeWindow.granularity := MONTH |} =
    Some {| MetricTimeWindow.count := Py.int_acc 0 count;
            MetricTimeWindow.granularity := g |}
    ∧ "28 months" = count +:+ " " +:+ granularity
    ∧ decimal_digits count ∧ is_token granularity
    ∧ 0 ≤ Py.int_acc 0 count
    ∧ g ∈ enum_items ∧ enum_value g = strip_one_s granularity
    ∧ (empty_world : CalendarWorld) = empty_world.
Proof.
  apply (get_time_window_returns_only_well_formed CalendarGranularity SimpleMetricType _ _
           example_reader empty_world empty_world "28 months").
  vm_compute. reflexivity.
Defined.



Lemma endswith_app_s g : Py.endswith "s" (g +:+ "s") = true.
Proof.
  induction g as [|c g IH]; [done|].
  change (String c g +:+ "s") with (String c (g +:+ "s")). simpl.
  by destruct (g +:+ "s") eqn:Hg; [destruct g|].
Qed.

Lemma drop_last_app_s g : Py.drop_last (g +:+ "s") = g.
Proof.
  induction g as [|c g IH]; [done|].
  change (String c g +:+ "s") with (String c (g +:+ "s")). simpl.
  destruct (g +:+ "s") eqn:Hg; [by destruct g|]. by rewrite IH.
Qed.

Lemma is_token_app_s g : is_token g → is_token (g +:+ "s").
Proof.
  unfold is_token. induction g as [|c g IH]; [done|].
  change (String c g +:+ "s") with (String c (g +:+ "s")). simpl.
  intros [Hc Hg]%andb_prop. by rewrite Hc, IH.
Qed.

Lemma split_length_token s : length (Py.split " " s) = 1%nat → is_token s.
Proof.
  destruct (Py.split " " s) as [|x [|y l]] eqn:Hsplit; try done.
  intros _. by apply split_one_inv in Hsplit as [_ ?].
Qed.

(** X3.  The singular and the plural of a granularity parse alike: for a
    token that does not end in [s], the window with the token and the window
    with the token followed by [s] return the same time window, or neither
    returns. *)
Theorem get_time_window_plural_as_singular :
  ∀ (TG MT : Type) (HTG : StrEnum TG) (HMT : StrEnum MT)
    (self : Reader) (st : World TG MT) (count granularity : string)
    (o : option (MetricTimeWindow.t TG)),
    is_token granularity → Py.endswith "s" granularity = false →
    _get_time_window self (Some (count +:+ " " +:+ granularity)) st = (Return o, st)
    ↔ _get_time_window self (Some (count +:+ " " +:+ granularity +:+ "s")) st = (Return o, st).
Proof.
  intros TG MT HTG HMT self st count granularity o Hg Hs.
  rewrite !get_time_window_by_fields.
  change (" " +:+ granularity +:+ "s") with (String " " (granularity +:+ "s")).
  change (" " +:+ granularity) with (String " " granularity).
  rewrite !split_app_sep.
  rewrite (split_token granularity Hg), (split_token _ (is_token_app_s _ Hg)).
  pose proof (split_nonempty " " count) as Hne.
  destruct (Py.split " " count) as [|c [|c' fields]]; [done| |by destruct fields].
  cbn [app]. unfold strip_one_s at 3 4 5 6.
  rewrite endswith_app_s, drop_last_app_s.
  unfold strip_one_s. rewrite Hs.
  destruct (Py.contains _ _); [|done]. destruct (Py.isdigit c); [|done].
  destruct (Py.int c); [|done]. by destruct (enum_of_value _).
Qed.

Lemma get_time_window_plural_as_singular_witness :
  _get_time_window example_reader (Some ("2" +:+ " " +:+ "week")) (empty_world : CalendarWorld) =
    (Return (Some {| MetricTimeWindow.count := 2; MetricTimeWindow.granularity := WEEK |}),
     empty_world)
  ↔ _get_time_window example_reader (Some ("2" +:+ " " +:+ "week" +:+ "s"))
      (empty_world : CalendarWorld) =
    (Return (Some {| MetricTimeWindow.count := 2; MetricTimeWindow.granularity := WEEK |}),
     empty_world).
Proof.
  apply (get_time_window_plural_as_singular CalendarGranularity SimpleMetricType _ _
           example_reader empty_world "2" "week").
  - reflexivity.
  - reflexivity.
Defined.

(** ** The measures and inputs of a metric *)

Lemma fold_left_snoc_map {A B} (f : A → B) (l : list A) (acc : list B) :
  fold_left (λ acc x, acc ++ [f x]) l acc = acc ++ (f <$> l).
Proof.
  revert acc. induction l as [|x l IH]; intros acc; cbn [fold_left].
  - by rewrite app_nil_r.
  - rewrite IH. cbn. by rewrite <- app_assoc.
Qed.

(** X4.  The input measures are converted one by one, in their order, and an
    absent list gives none; a measure given as a bare string gives what the
    measure of that name with no filter and no alias gives. *)
Theorem get_input_measures_elementwise :
  _get_input_measures None = []
  ∧ (∀ us, _get_input_measures (Some us) = _get_input_measure <$> us)
  ∧ (∀ us, _get_input_measures (Some (spelled_out_measure <$> us)) =
           _get_input_measures (Some us)).
Proof.
  split; [done|]. split.
  - intros us. apply (fold_left_snoc_map _get_input_measure us []).
  - intros us. unfold _get_input_measures.
    rewrite !(fold_left_snoc_map _get_input_measure). cbn.
    rewrite <- list_fmap_compose. apply list_fmap_ext. by intros i [s|u].
Qed.

Lemma bind_ext {W A B} (m : M W A) (k k' : A → M W B) w :
  (∀ a w', k a w' = k' a w') → (m ≫= k) w = (m ≫= k') w.
Proof.
  intros Hk. unfold mbind, M_bind, bind. destruct (m w) as [[a|e] w']; [apply Hk|done].
Qed.

Section MetricInputs.
Context {TimeGranularity MetricType : Type}.
Context `{!StrEnum TimeGranularity} `{!StrEnum MetricType}.
Implicit Types (self : Reader) (st : World TimeGranularity MetricType).

Lemma _get_metric_inputs_loop_spelled_out self us acc st :
  _get_metric_inputs_loop (MetricType := MetricType) self (spelled_out_input <$> us) acc st =
  _get_metric_inputs_loop self us acc st.
Proof.
  revert acc st. induction us as [|[s|u] us IH]; intros acc st; [done|..].
  - cbn. unfold mbind, M_bind, bind. cbn. apply IH.
  - cbn. apply bind_ext. intros offset_to_grain st1.
    apply bind_ext. intros offset_window st2. apply IH.
Qed.

(** X5.  A metric input given as a bare string is read as the input of that
    name with no filter, no alias, no offset window and no offset grain:
    spelling the bare strings out changes nothing of what
    [_get_metric_inputs] returns or raises. *)
Theorem get_metric_inputs_bare_string_shorthand self us st :
  _get_metric_inputs (MetricType := MetricType) self (Some (spelled_out_input <$> us)) st =
  _get_metric_inputs self (Some us) st.
Proof. apply _get_metric_inputs_loop_spelled_out. Qed.

Lemma _get_metric_inputs_loop_names self us acc st r st' :
  _get_metric_inputs_loop (MetricType := MetricType) self us acc st = (Return r, st') →
  ∃ items, r = acc ++ items ∧ MetricInput.name <$> items = metric_input_name <$> us.
Proof.
  revert acc st. induction us as [|[s|u] us IH]; intros acc st.
  - intros [= <- <-]. exists []. by rewrite app_nil_r.
  - cbn. intros (items & -> & Hnames)%IH. eexists (_ :: items).
    rewrite <- app_assoc. split; [done|]. cbn. by rewrite Hnames.
  - cbn. intros (offset_to_grain & st1 & _ & Hrun)%bind_inv_Return.
    apply bind_inv_Return in Hrun as (offset_window & st2 & _ & Hrun).
    apply IH in Hrun as (items & -> & Hnames). eexists (_ :: items).
    rewrite <- app_assoc. split; [done|]. cbn. by rewrite Hnames.
Qed.

(** X6.  When [_get_metric_inputs] returns, it returns one input per
    declared input, in the declared order and under the declared names, and
    the world is as before; an absent list gives no input. *)
Theorem get_metric_inputs_names_in_order self us st r st' :
  _get_metric_inputs (MetricType := MetricType) self us st = (Return r, st') →
  MetricInput.name <$> r = metric_input_name <$> default [] us
  ∧ length r = length (default [] us)
  ∧ st' = st.
Proof.
  intros Hrun.
  assert (st' = st) as ->.
  { pose proof (_get_metric_inputs_loop_pure (MetricType := MetricType) self
                  (default [] us) [] st) as Hpure.
    destruct us as [us|]; cbn in Hrun, Hpure; [|by injection Hrun].
    by rewrite Hrun in Hpure. }
  assert (MetricInput.name <$> r = metric_input_name <$> default [] us) as Hnames.
  { destruct us as [us|]; cbn in Hrun; [|by injection Hrun as <-].
    by apply _get_metric_inputs_loop_names in Hrun as (items & -> & Hnames). }
  split; [done|]. split; [|done].
  apply (f_equal length) in Hnames. by rewrite !length_fmap in Hnames.
Qed.


End MetricInputs.

Lemma get_metric_inputs_names_in_order_witness :
  MetricInput.name <$> [revenue_input] =
    metric_input_name <$> default [] (Some [IsStr "revenue"])
  ∧ length [revenue_input] = length (default [] (Some [IsStr (X := UnparsedMetricInput.t) "revenue"]))
  ∧ (empty_world : CalendarWorld) = empty_world.
Proof.
  apply (get_metric_inputs_names_in_order (MetricType := SimpleMetricType) example_reader
           (Some [IsStr "revenue"]) empty_world [revenue_input] empty_world).
  reflexivity.
Defined.


(** ** A reading that fails *)

Section ReaderFailure.
Context {TimeGranularity MetricType : Type}.
Context `{!StrEnum TimeGranularity} `{!StrEnum MetricType}.
Variable calculate_node_config :
  bool → Dict → list string → NodeType.t → string → bool → Dict → outcome ConfigObj.
Variable finalize_and_validate : ConfigObj → outcome ConfigObj.
Variable get_fqn_prefix : string → list string.
Variable get_rendered :
  string → Manifest TimeGranularity MetricType → string → Exposure.t → outcome Captured.
Implicit Types (self : Reader) (st : World TimeGranularity MetricType).

(** The world a failed reading may leave: the manifest of before, and events
    none of which is a registration. *)
Lemma nothing_registered_intro st (m : Manifest TimeGranularity MetricType) evs :
  m = manifest st → forallb (λ e, negb (is_registration e)) evs = true →
  manifest {| manifest := m; events := events st ++ evs |} = manifest st
  ∧ ∃ evs', events {| manifest := m; events := events st ++ evs |} = events st ++ evs'
            ∧ forallb (λ e, negb (is_registration e)) evs' = true.
Proof. intros -> Hevs. split; [done|]. by exists evs. Qed.

Lemma parse_exposure_failure self unparsed st e st' :
  parse_exposure calculate_node_config finalize_and_validate get_fqn_prefix get_rendered
    self unparsed st = (Raise e, st') →
  manifest st' = manifest st
  ∧ ∃ evs, events st' = events st ++ evs
           ∧ forallb (λ e, negb (is_registration e)) evs = true.
Proof.
  unfold parse_exposure, _generate_exposure_config.
  unfold mbind, M_bind, bind. rewrite generate_config_run.
  destruct (calculate_node_config true _ _ _ _ _ _) as [c0|e0].
  2:{ intros [= <- <-]. by apply nothing_registered_intro. }
  unfold lift at 1.
  destruct (finalize_and_validate c0) as [c|e0].
  2:{ intros [= <- <-]. by apply nothing_registered_intro. }
  rewrite generate_config_run.
  destruct (calculate_node_config false _ _ _ _ _ _) as [u|e0].
  2:{ intros [= <- <-]. rewrite <- app_assoc. by apply nothing_registered_intro. }
  destruct c as [config| | |];
    try (intros [= <- <-]; rewrite <- app_assoc; by apply nothing_registered_intro).
  unfold gets, lift. cbn [manifest events].
  destruct (get_rendered _ _ _ _) as [captured|e0].
  2:{ intros [= <- <-]. rewrite <- app_assoc. by apply nothing_registered_intro. }
  cbn [Exposure.config]. by destruct (exposure_enabled config).
Qed.

Lemma parse_metric_failure self unparsed st e st' :
  parse_metric calculate_node_config finalize_and_validate get_fqn_prefix
    self unparsed st = (Raise e, st') →
  manifest st' = manifest st
  ∧ ∃ evs, events st' = events st ++ evs
           ∧ forallb (λ e, negb (is_registration e)) evs = true.
Proof.
  unfold parse_metric, _generate_metric_config.
  unfold mbind, M_bind, bind. rewrite generate_config_run.
  destruct (calculate_node_config true _ _ _ _ _ _) as [c0|e0].
  2:{ intros [= <- <-]. by apply nothing_registered_intro. }
  unfold lift at 1.
  destruct (finalize_and_validate c0) as [c|e0].
  2:{ intros [= <- <-]. by apply nothing_registered_intro. }
  rewrite generate_config_run.
  destruct (calculate_node_config false _ _ _ _ _ _) as [u|e0].
  2:{ intros [= <- <-]. rewrite <- app_assoc. by apply nothing_registered_intro. }
  unfold lift.
  destruct c as [|config| |];
    try (intros [= <- <-]; rewrite <- app_assoc; by apply nothing_registered_intro).
  match goal with |- context [enum_call ?v ?w] =>
    pose proof (enum_call_pure (E := MetricType) v w) as Ht;
    destruct (enum_call (E := MetricType) v w) as [[type|e0] w1]
  end; simpl in Ht; subst.
  2:{ intros [= <- <-]. rewrite <- app_assoc. by apply nothing_registered_intro. }
  match goal with |- context [_get_metric_type_params ?s ?tp ?w] =>
    pose proof (_get_metric_type_params_pure s tp w) as Hp;
    destruct (_get_metric_type_params s tp w) as [[type_params|e0] w1]
  end; simpl in Hp; subst.
  2:{ intros [= <- <-]. rewrite <- app_assoc. by apply nothing_registered_intro. }
  cbn [Metric.config]. by destruct (metric_enabled config).
Qed.

End ReaderFailure.

(** X8.  A reading of an exposure or of a metric that raises, for whatever
    reason (a resolver or the validation failing, a config of the wrong
    class, the renderer failing on the dependencies, a metric type or a
    window that is not valid), leaves the manifest as it was and registers
    nothing: the events it adds are config resolutions only. *)
Theorem failed_reading_registers_nothing :
  ∀ (TG MT : Type) (HTG : StrEnum TG) (HMT : StrEnum MT)
    (calculate_node_config :
       bool → Dict → list string → NodeType.t → string → bool → Dict → outcome ConfigObj)
    (finalize_and_validate : ConfigObj → outcome ConfigObj)
    (get_fqn_prefix : string → list string)
    (get_rendered : string → Manifest TG MT → string → Exposure.t → outcome Captured)
    (self : Reader) (st st' : World TG MT) (e : Exception),
    (∀ unparsed,
       parse_exposure calculate_node_config finalize_and_validate get_fqn_prefix get_rendered
         self unparsed st = (Raise e, st') →
       manifest st' = manifest st
       ∧ ∃ evs, events st' = events st ++ evs
                ∧ forallb (λ e, negb (is_registration e)) evs = true)
    ∧ (∀ unparsed,
         parse_metric calculate_node_config finalize_and_validate get_fqn_prefix
           self unparsed st = (Raise e, st') →
         manifest st' = manifest st
         ∧ ∃ evs, events st' = events st ++ evs
                  ∧ forallb (λ e, negb (is_registration e)) evs = true).
Proof.
  intros. split; intros unparsed.
  - apply parse_exposure_failure.
  - apply parse_metric_failure.
Qed.

Lemma failed_reading_registers_nothing_witness :
  manifest read_bad_window_metric.2 = manifest (empty_world : CalendarWorld)
  ∧ ∃ evs, events read_bad_window_metric.2 = events (empty_world : CalendarWorld) ++ evs
           ∧ forallb (λ e, negb (is_registration e)) evs = true.
Proof.
  apply (proj2 (failed_reading_registers_nothing CalendarGranularity SimpleMetricType _ _
                  example_calculate_node_config example_finalize_and_validate
                  example_get_fqn_prefix example_get_rendered example_reader
                  empty_world read_bad_window_metric.2
                  (invalid_granularity_error example_reader "dayz" "7 dayz"))
           bad_window_metric).
  vm_compute. reflexivity.
Defined.

(** ** Unique ids *)

Lemma dot_free_prefix a b x y :
  no_dot a → no_dot b → a +:+ "." +:+ x = b +:+ "." +:+ y → a = b ∧ x = y.
Proof.
  unfold no_dot. revert b. induction a as [|c a IH]; intros [|c' b] Ha Hb Heq.
  - change (String "." x = String "." y) in Heq. by injection Heq as ->.
  - change (String "." x = String c' (b +:+ "." +:+ y)) in Heq.
    injection Heq as <- _. discriminate Hb.
  - change (String c (a +:+ "." +:+ x) = String "." y) in Heq.
    injection Heq as -> _. discriminate Ha.
  - change (String c (a +:+ "." +:+ x) = String c' (b +:+ "." +:+ y)) in Heq.
    injection Heq as -> Heq. cbn in Ha, Hb.
    apply andb_prop in Ha as [_ Ha]. apply andb_prop in Hb as [_ Hb].
    destruct (IH b Ha Hb Heq) as [-> ->]. done.
Qed.

(** X9.  Within one resource type, the unique id [type.package.name]
    determines the package and the name as long as package names hold no
    dot; with a dot in a package name two different declarations can get the
    same id, as [a.b] with [c] and [a] with [b.c] do. *)
Theorem unique_id_determines_package_and_name :
  (∀ resource_type package package' name name',
     no_dot package → no_dot package' →
     unique_id_of resource_type package name = unique_id_of resource_type package' name' →
     package = package' ∧ name = name')
  ∧ (∀ resource_type,
       unique_id_of resource_type "a.b" "c" = unique_id_of resource_type "a" "b.c").
Proof.
  split.
  - intros resource_type package package' name name' Hp Hp'. unfold unique_id_of.
    intros Heq%(inj (String.app _)). change ("." +:+ ?s) with (String "." s) in Heq.
    injection Heq as Heq. by apply dot_free_prefix.
  - intros resource_type. unfold unique_id_of. f_equal.
Qed.

Lemma unique_id_determines_package_and_name_witness :
  "jaffle" = "jaffle" ∧ "weekly_kpis" = "weekly_kpis".
Proof.
  apply (proj1 unique_id_determines_package_and_name NodeType.Exposure
           "jaffle" "jaffle" "weekly_kpis" "weekly_kpis"); reflexivity.
Defined.

(** ** The [parse] methods *)

Lemma for_each_app {W A} (body : A → M W unit) (l1 l2 : list A) (w : W) :
  for_each (l1 ++ l2) body w = bind (for_each l1 body) (λ _, for_each l2 body) w.
Proof.
  revert w. induction l1 as [|x l1 IH]; intros w; [done|].
  cbn [app for_each]. unfold bind.
  destruct (body x w) as [[[]|e] w1]; [|done]. by rewrite IH.
Qed.

Section ReaderParseProps.
Context {TG MT : Type} {U : Type}.
Variable load : Dict → string + U.
Variable parse_one : Reader → U → M (World TG MT) unit.
Implicit Types (self : Reader) (st : World TG MT).

Lemma parse_entries_append self key entries entries' st :
  parse_entries load parse_one self key (entries ++ entries') st =
  match parse_entries load parse_one self key entries st with
  | (Return _, st1) => parse_entries load parse_one self key entries' st1
  | (Raise e, st1) => (Raise e, st1)
  end.
Proof. unfold parse_entries. by rewrite for_each_app. Qed.

(** X10.  Reading the entries of a file is reading a first part of them and
    then, when that returned, the rest in the world it left; when the first
    part raised, the rest is not read. *)
Theorem parse_entries_app self key entries entries' st :
  parse_entries load parse_one self key (entries ++ entries') st =
  match parse_entries load parse_one self key entries st with
  | (Return _, st1) => parse_entries load parse_one self key entries' st1
  | (Raise e, st1) => (Raise e, st1)
  end.
Proof. apply parse_entries_append. Qed.

(** X11.  [parse] stops at the first entry that fails.  When the entries
    before it were read, an entry that does not validate raises the
    [YamlParseDictError] made of the file path, the key, the entry and the
    validation error, and an entry whose reading raises raises that error; in
    both cases the entries after it are not looked at and what the entries
    before it registered stays. *)
Theorem parse_entries_stops_at_first_failure self key before data after st st1 :
  parse_entries load parse_one self key before st = (Return tt, st1) →
  (∀ exc, load data = inl exc →
          parse_entries load parse_one self key (before ++ data :: after) st =
          (Raise (YamlParseDictError (path (yaml self)) key data exc), st1))
  ∧ (∀ unparsed e st2,
       load data = inr unparsed → parse_one self unparsed st1 = (Raise e, st2) →
       parse_entries load parse_one self key (before ++ data :: after) st = (Raise e, st2)).
Proof.
  intros Hbefore. split.
  - intros exc Hload. rewrite parse_entries_append, Hbefore.
    unfold parse_entries. cbn [for_each]. unfold bind. by rewrite Hload.
  - intros unparsed e st2 Hload Hone. rewrite parse_entries_append, Hbefore.
    unfold parse_entries. cbn [for_each]. unfold bind. by rewrite Hload, Hone.
Qed.

End ReaderParseProps.


Lemma parse_entries_stops_at_first_failure_witness :
  parse_entries example_load_group (parse_group (MetricType := SimpleMetricType))
    example_reader "groups"
    ([group_entry "finance"] ++ nameless_entry :: [group_entry "sales"])
    (empty_world : CalendarWorld) =
  (Raise (YamlParseDictError (path (yaml example_reader)) "groups" nameless_entry
            "'name' is a required property"),
   (parse_group example_reader
      {| UnparsedGroup.name := "finance"; UnparsedGroup.owner := ∅ |}
      empty_world).2).
Proof.
  apply (proj1 (parse_entries_stops_at_first_failure example_load_group
                  (parse_group (MetricType := SimpleMetricType)) example_reader "groups"
                  [group_entry "finance"] nameless_entry [group_entry "sales"]
                  (empty_world : CalendarWorld)
                  (parse_group example_reader
                     {| UnparsedGroup.name := "finance"; UnparsedGroup.owner := ∅ |}
                     empty_world).2 ltac:(vm_compute; reflexivity))).
  vm_compute. reflexivity.
Defined.


(** ** More on the common-identifiers rule *)

Section CommonIdentifiersMore.
Import CommonIdentifiersRule.

Lemma index_names_nonempty (decls : list (Entity.t * Identifier.t)) r names :
  fold_left (λ d decl, index_step d decl.1 decl.2) decls ∅ !! r = Some names →
  names ≠ ∅.
Proof.
  revert names. induction decls as [|[e i] decls IH] using rev_ind; intros names.
  - cbn. by rewrite lookup_empty.
  - rewrite fold_left_app. cbn [fold_left fst snd]. rewrite index_step_lookup.
    case_decide as Hr; [|apply IH].
    intros [= <-] Hempty.
    apply (not_elem_of_empty (C := gset string) (Entity.name e)).
    rewrite <- Hempty. apply elem_of_union_r, elem_of_singleton. done.
Qed.

Lemma index_entry model r :
  match _map_entity_identifiers (UserConfiguredModel.entities model) !! r with
  | Some names =>
      names ≠ ∅
      ∧ ∀ x, x ∈ names ↔
             ∃ entity identifier,
               (entity, identifier) ∈ declarations model
               ∧ Identifier.reference identifier = r ∧ Entity.name entity = x
  | None =>
      ∀ entity identifier,
        (entity, identifier) ∈ declarations model → Identifier.reference identifier ≠ r
  end.
Proof.
  rewrite _map_entity_identifiers_declarations.
  destruct (fold_left _ (declarations model) ∅ !! r) as [names|] eqn:Hnames.
  - split; [by eapply index_names_nonempty|].
    intros x. rewrite <- index_names, Hnames. done.
  - intros entity identifier Hin <-.
    destruct (index_declared _ _ _ Hin) as [names Hsome]. congruence.
Qed.

(** X13.  The index built by [_map_entity_identifiers] has an entry for a
    reference exactly when some entity declares it, and the entry is then the
    set, never empty, of the names of the entities that declare it. *)
Theorem map_entity_identifiers_index model r :
  match _map_entity_identifiers (UserConfiguredModel.entities model) !! r with
  | Some names =>
      names ≠ ∅
      ∧ ∀ x, x ∈ names ↔
             ∃ entity identifier,
               (entity, identifier) ∈ declarations model
               ∧ Identifier.reference identifier = r ∧ Entity.name entity = x
  | None =>
      ∀ entity identifier,
        (entity, identifier) ∈ declarations model → Identifier.reference identifier ≠ r
  end.
Proof. apply index_entry. Qed.

Lemma _check_identifier_nil model entity identifier :
  (entity, identifier) ∈ declarations model →
  _check_identifier identifier entity
    (_map_entity_identifiers (UserConfiguredModel.entities model)) = [] →
  ∃ entity' identifier',
    (entity', identifier') ∈ declarations model
    ∧ Identifier.reference identifier' = Identifier.reference identifier
    ∧ Entity.name entity' ≠ Entity.name entity.
Proof.
  intros Hin. unfold _check_identifier.
  pose proof (index_entry model (Identifier.reference identifier)) as Hindex.
  destruct (_map_entity_identifiers _ !! _) as [names|].
  - destruct Hindex as [_ Hnames]. case_bool_decide as Hsize; [done|]. intros _.
    apply size_non_empty_iff, set_choose in Hsize as [x Hx].
    apply elem_of_difference in Hx as [Hx Hne].
    apply Hnames in Hx as (entity' & identifier' & Hin' & Hr & <-).
    exists entity', identifier'. repeat split; try done.
    intros Heq. apply Hne, elem_of_singleton. done.
  - by destruct (Hindex entity identifier Hin).
Qed.

(** X14.  The rule finds nothing in a model exactly when every identifier
    declared in it is also declared, under the same reference, on an entity
    of another name. *)
Theorem validate_model_nil_iff model :
  validate_model model = [] ↔
  ∀ entity identifier,
    (entity, identifier) ∈ declarations model →
    ∃ entity' identifier',
      (entity', identifier') ∈ declarations model
      ∧ Identifier.reference identifier' = Identifier.reference identifier
      ∧ Entity.name entity' ≠ Entity.name entity.
Proof.
  rewrite validate_model_declarations. split.
  - intros Hnil entity identifier Hin. apply _check_identifier_nil; [done|].
    destruct (_check_identifier identifier entity _) as [|issue issues] eqn:Hcheck; [done|].
    assert (issue ∈ @nil ValidationIssueType) as Hissue; [|by apply elem_of_nil in Hissue].
    rewrite <- Hnil. apply list_elem_of_bind. exists (entity, identifier).
    cbn [fst snd]. rewrite Hcheck. split; [by left|done].
  - intros Hshared.
    destruct (declarations model ≫= _) as [|issue issues] eqn:Hissues; [done|].
    assert (issue ∈ issue :: issues) as Hissue by left. rewrite <- Hissues in Hissue.
    apply list_elem_of_bind in Hissue as ([entity identifier] & Hemit & Hin).
    destruct (Hshared entity identifier Hin) as (entity' & identifier' & Hin' & Hr & Hne).
    cbn [fst snd] in Hemit.
    rewrite (_check_identifier_shared model entity identifier entity' identifier') in Hemit
      by done.
    by apply elem_of_nil in Hemit.
Qed.

Lemma bind_length_le {A B} (f : A → list B) (l : list A) :
  (∀ x, (length (f x) ≤ 1)%nat) → (length (l ≫= f) ≤ length l)%nat.
Proof.
  intros Hf. induction l as [|x l IH]; [done|].
  rewrite bind_cons, length_app. cbn. specialize (Hf x). lia.
Qed.

(** X15.  The rule emits warnings only, at most one per declaration: every
    issue is the warning, of element type [IDENTIFIER], for an identifier
    declared in the model and the entity declaring it, and there are no more
    issues than declarations. *)
Theorem validate_model_warnings_only model :
  (∀ issue, issue ∈ validate_model model →
            ∃ entity identifier,
              (entity, identifier) ∈ declarations model
              ∧ issue =
                ValidationWarning
                  {| entity_element :=
                       {| entity_name := Entity.name entity;
                          element_name := Identifier.name identifier |};
                     element_type := IDENTIFIER |}
                  (only_one_entity_message identifier entity))
  ∧ (length (validate_model model) ≤ length (declarations model))%nat.
Proof.
  rewrite validate_model_declarations. split.
  - intros issue ([entity identifier] & Hemit & Hin)%list_elem_of_bind.
    apply _check_identifier_emits in Hemit as [-> _]. by exists entity, identifier.
  - apply bind_length_le. intros [entity identifier]. unfold _check_identifier. cbn.
    destruct (_ !! _); [|cbn; lia]. destruct (bool_decide _); cbn; lia.
Qed.

(** X16.  The order of the entities does not matter to the rule: for two
    lists of entities that are permutations of each other the index is the
    same and the issues are the same up to their order. *)
Theorem validate_model_entities_order entities entities' :
  entities ≡ₚ entities' →
  _map_entity_identifiers (Some entities) = _map_entity_identifiers (Some entities')
  ∧ validate_model {| UserConfiguredModel.entities := Some entities |} ≡ₚ
    validate_model {| UserConfiguredModel.entities := Some entities' |}.
Proof.
  intros Hperm.
  set (model := {| UserConfiguredModel.entities := Some entities |}).
  set (model' := {| UserConfiguredModel.entities := Some entities' |}).
  assert (declarations model ≡ₚ declarations model') as Hdecls.
  { unfold declarations. cbn. by rewrite Hperm. }
  assert (_map_entity_identifiers (Some entities) = _map_entity_identifiers (Some entities'))
    as Hindex.
  { apply map_eq. intros r.
    pose proof (index_entry model r) as H1.
    pose proof (index_entry model' r) as H2.
    change (UserConfiguredModel.entities model) with (Some entities) in H1.
    change (UserConfiguredModel.entities model') with (Some entities') in H2.
    destruct (_map_entity_identifiers (Some entities) !! r) as [names|],
             (_map_entity_identifiers (Some entities') !! r) as [names'|]; [| | |done].
    - f_equal. apply set_eq. intros x. rewrite (proj2 H1 x), (proj2 H2 x).
      by setoid_rewrite Hdecls.
    - destruct H1 as [Hne H1]. exfalso.
      apply set_choose_L in Hne as [x Hx].
      apply H1 in Hx as (entity & identifier & Hin & Hr & _).
      rewrite Hdecls in Hin. by apply (H2 entity identifier Hin).
    - destruct H2 as [Hne H2]. exfalso.
      apply set_choose_L in Hne as [x Hx].
      apply H2 in Hx as (entity & identifier & Hin & Hr & _).
      rewrite <- Hdecls in Hin. by apply (H1 entity identifier Hin). }
  split; [done|].
  rewrite !validate_model_declarations.
  change (UserConfiguredModel.entities model) with (Some entities).
  change (UserConfiguredModel.entities model') with (Some entities').
  rewrite Hindex. by rewrite Hdecls.
Qed.

End CommonIdentifiersMore.

Lemma validate_model_nil_iff_witness :
  CommonIdentifiersRule.validate_model model_foo_on_A_and_B = [].
Proof.
  apply (proj2 (validate_model_nil_iff model_foo_on_A_and_B)).
  intros entity identifier Hin.
  change (declarations model_foo_on_A_and_B)
    with [(entity_A, identifier_foo); (entity_B, identifier_foo)] in *.
  apply elem_of_cons in Hin as [[= -> ->]|Hin].
  - exists entity_B, identifier_foo. split; [right; left|]. split; [done|discriminate].
  - apply elem_of_cons in Hin as [[= -> ->]|Hin]; [|by apply elem_of_nil in Hin].
    exists entity_A, identifier_foo. split; [left|]. split; [done|discriminate].
Defined.

Lemma validate_model_warnings_only_witness :
  ∃ entity identifier,
    (entity, identifier) ∈ declarations model_foo_on_A
    ∧ CommonIdentifiersRule.only_one_entity_warning identifier_foo entity_A =
      ValidationWarning
        {| entity_element :=
             {| entity_name := Entity.name entity;
                element_name := Identifier.name identifier |};
           element_type := IDENTIFIER |}
        (CommonIdentifiersRule.only_one_entity_message identifier entity).
Proof.
  apply (proj1 (validate_model_warnings_only model_foo_on_A)).
  vm_compute. left.
Defined.

Lemma validate_model_entities_order_witness :
  CommonIdentifiersRule._map_entity_identifiers (Some [entity_A_foo_bar; entity_B_bar]) =
    CommonIdentifiersRule._map_entity_identifiers (Some [entity_B_bar; entity_A_foo_bar])
  ∧ CommonIdentifiersRule.validate_model
      {| UserConfiguredModel.entities := Some [entity_A_foo_bar; entity_B_bar] |} ≡ₚ
    CommonIdentifiersRule.validate_model
      {| UserConfiguredModel.entities := Some [entity_B_bar; entity_A_foo_bar] |}.
Proof.
  apply (validate_model_entities_order [entity_A_foo_bar; entity_B_bar]
           [entity_B_bar; entity_A_foo_bar]).
  apply perm_swap.
Defined.

(** ** More on the compile task *)

Section CompileTaskMore.
Context {TG MT : Type}.
Variable parse_remote : string → string → M (Manifest TG MT) SqlNode.t.
Variable process_node : SqlNode.t → M (Manifest TG MT) unit.
Variable super_runtime_initialize : M (CompileTask.t TG MT) unit.
Variable super_after_run : string → list RunResult.t → M (CompileTask.t TG MT) unit.
Variable super_handle_result : RunResult.t → M (CompileTask.t TG MT) unit.
Implicit Types (self : CompileTask.t TG MT) (result : RunResult.t).

#[local] Abbreviation initialize :=
  (CompileTask._runtime_initialize parse_remote process_node super_runtime_initialize).
#[local] Abbreviation finalize := (CompileTask.after_run super_after_run).
#[local] Abbreviation handle := (CompileTask._handle_result super_handle_result).

(** X17.  When the node recorded by the task is no longer in the node map,
    [after_run] raises [KeyError] for its id: the task is left as it was,
    the record included, and the inherited [after_run] is not run. *)
Theorem after_run_missing_node adapter results self key :
  CompileTask._inline_node_id self = Some key → key ≠ "" →
  nodes (CompileTask.manifest self) !! key = None →
  CompileTask.after_run super_after_run adapter results self = (Raise (KeyError key), self).
Proof.
  intros Hid Hkey Hnone.
  unfold CompileTask.after_run, mbind, M_bind, bind, gets. rewrite Hid.
  cbn [truthy_str]. apply String.eqb_neq in Hkey. rewrite Hkey. cbn [negb from_option id].
  unfold CompileTask.nodes_pop. by rewrite Hnone.
Qed.

(** With a node recorded and present [after_run] runs the inherited
    [after_run] on the task with the node removed and the record cleared; on
    a task with nothing recorded ([None] or the empty string) it is the
    inherited [after_run] alone. *)
Lemma after_run_cases adapter results self :
  (∀ key n,
     CompileTask._inline_node_id self = Some key → key ≠ "" →
     nodes (CompileTask.manifest self) !! key = Some n →
     finalize adapter results self =
     super_after_run adapter results
       (CompileTask.set_inline_node_id None
          (CompileTask.set_manifest
             {| nodes := delete key (nodes (CompileTask.manifest self));
                disabled := disabled (CompileTask.manifest self) |} self)))
  ∧ (truthy_str (CompileTask._inline_node_id self) = false →
     finalize adapter results self = super_after_run adapter results self).
Proof.
  split.
  - intros key n Hid Hkey Hsome.
    unfold CompileTask.after_run, mbind, M_bind, bind, gets. rewrite Hid.
    cbn [truthy_str]. apply String.eqb_neq in Hkey. rewrite Hkey. cbn [negb from_option id].
    unfold CompileTask.nodes_pop. by rewrite Hsome.
  - intros Hnone. unfold CompileTask.after_run, mbind, M_bind, bind, gets.
    by rewrite Hnone.
Qed.

Lemma runtime_initialize_converts self sql msg :
  inline (CompileTask.args self) = Some sql → sql ≠ "" →
  (∀ m, parse_remote sql "inline_query" (CompileTask.manifest self) =
          (Raise (CompilationError msg), m) →
        initialize self =
        (Raise (DbtException "Error parsing inline query"),
         CompileTask.fire_event
           (ParseInlineNodeError msg "sql/inline_query" "inline_query"
              "sqloperation.test.inline_query" "failed")
           (CompileTask.set_manifest m self)))
  ∧ (∀ node m1 m2,
       parse_remote sql "inline_query" (CompileTask.manifest self) = (Return node, m1) →
       process_node node m1 = (Raise (CompilationError msg), m2) →
       initialize self =
       (Raise (DbtException "Error parsing inline query"),
        CompileTask.fire_event
          (ParseInlineNodeError msg "sql/inline_query" "inline_query"
             "sqloperation.test.inline_query" "failed")
          (CompileTask.set_manifest m2 self))).
Proof.
  intros Hinline Hsql. split.
  - intros m Hparse. by apply (runtime_initialize_parse_failure _ _ _ self sql msg m).
  - intros node m1 m2 Hparse Hprocess.
    unfold CompileTask._runtime_initialize, mbind, M_bind, bind, gets.
    rewrite Hinline. cbn [truthy_str from_option id].
    apply String.eqb_neq in Hsql. rewrite Hsql. cbn [negb].
    unfold CompileTask.try_except_CompilationError, CompileTask.on_manifest.
    rewrite Hparse. cbn [CompileTask.manifest CompileTask.set_manifest].
    rewrite Hprocess. reflexivity.
Qed.

(** X19.  A [CompilationError] raised while the inline query is parsed, by
    [parse_remote] or by [process_node] after it, becomes the [DbtException]
    [Error parsing inline query], after one [ParseInlineNodeError] event with
    the error's message; no inline node is recorded, although the manifest
    keeps what the two calls did to it, and the inherited initialization is
    not run. *)
Theorem runtime_initialize_compilation_error self sql msg :
  inline (CompileTask.args self) = Some sql → sql ≠ "" →
  (∀ m, parse_remote sql "inline_query" (CompileTask.manifest self) =
          (Raise (CompilationError msg), m) →
        initialize self =
        (Raise (DbtException "Error parsing inline query"),
         CompileTask.fire_event
           (ParseInlineNodeError msg "sql/inline_query" "inline_query"
              "sqloperation.test.inline_query" "failed")
           (CompileTask.set_manifest m self)))
  ∧ (∀ node m1 m2,
       parse_remote sql "inline_query" (CompileTask.manifest self) = (Return node, m1) →
       process_node node m1 = (Raise (CompilationError msg), m2) →
       initialize self =
       (Raise (DbtException "Error parsing inline query"),
        CompileTask.fire_event
          (ParseInlineNodeError msg "sql/inline_query" "inline_query"
             "sqloperation.test.inline_query" "failed")
          (CompileTask.set_manifest m2 self))).
Proof. apply runtime_initialize_converts. Qed.

(** Without an inline argument ([None] or the empty string) the
    initialization is the inherited one and nothing else; with one, once the
    query is parsed and processed, the node's id is recorded and then the
    inherited initialization runs. *)
Lemma runtime_initialize_cases self :
  (truthy_str (inline (CompileTask.args self)) = false →
   initialize self = super_runtime_initialize self)
  ∧ (∀ sql node m1 m2,
       inline (CompileTask.args self) = Some sql → sql ≠ "" →
       parse_remote sql "inline_query" (CompileTask.manifest self) = (Return node, m1) →
       process_node node m1 = (Return tt, m2) →
       initialize self =
       super_runtime_initialize
         (CompileTask.set_inline_node_id (Some (SqlNode.unique_id node))
            (CompileTask.set_manifest m2 self))).
Proof.
  split.
  - intros Hnone. unfold CompileTask._runtime_initialize, mbind, M_bind, bind, gets.
    by rewrite Hnone.
  - intros sql node m1 m2 Hinline Hsql Hparse Hprocess.
    unfold CompileTask._runtime_initialize, mbind, M_bind, bind, gets.
    rewrite Hinline. cbn [truthy_str from_option id].
    apply String.eqb_neq in Hsql. rewrite Hsql. cbn [negb].
    unfold CompileTask.try_except_CompilationError, CompileTask.on_manifest.
    rewrite Hparse. cbn [CompileTask.manifest CompileTask.set_manifest].
    rewrite Hprocess. reflexivity.
Qed.

(** X18.  [after_run] retracts the recorded node once.  With a node recorded
    and present, and an inherited [after_run] that leaves the keys of the
    node map and the record alone, the task after [after_run] has no record
    and no such node, and a second [after_run] on it is the inherited one
    alone: it pops nothing and raises no [KeyError]. *)
Theorem after_run_twice adapter results self key :
  keeps_node_keys (super_after_run adapter results) →
  CompileTask._inline_node_id self = Some key → key ≠ "" →
  key ∈ dom (nodes (CompileTask.manifest self)) →
  CompileTask._inline_node_id (finalize adapter results self).2 = None
  ∧ (key ∉ dom (nodes (CompileTask.manifest (finalize adapter results self).2)))
  ∧ finalize adapter results (finalize adapter results self).2 =
    super_after_run adapter results (finalize adapter results self).2.
Proof.
  intros Hsuper Hid Hkey Hin.
  assert (CompileTask._inline_node_id (finalize adapter results self).2 = None) as Hnone.
  { apply elem_of_dom in Hin as [n Hn].
    rewrite (proj1 (after_run_cases adapter results self) key n Hid Hkey Hn).
    by rewrite (proj2 (Hsuper _)). }
  split; [done|]. split.
  - rewrite (after_run_retracts super_after_run adapter results self key Hid Hkey Hin).
    + rewrite elem_of_difference, elem_of_singleton. intros [_ Hne]. by apply Hne.
    + intros self'. apply Hsuper.
  - apply after_run_cases. by rewrite Hnone.
Qed.

(** X20.  An initialization that fails in [process_node] leaves behind what
    [parse_remote] put in the manifest: nothing was recorded, so [after_run]
    on the task it leaves is the inherited [after_run] alone and pops no
    node. *)
Theorem failed_initialization_is_not_retracted adapter results self sql msg node m1 m2 :
  truthy_str (CompileTask._inline_node_id self) = false →
  inline (CompileTask.args self) = Some sql → sql ≠ "" →
  parse_remote sql "inline_query" (CompileTask.manifest self) = (Return node, m1) →
  process_node node m1 = (Raise (CompilationError msg), m2) →
  CompileTask.manifest (initialize self).2 = m2
  ∧ finalize adapter results (initialize self).2 =
    super_after_run adapter results (initialize self).2.
Proof.
  intros Hnone Hinline Hsql Hparse Hprocess.
  rewrite (proj2 (runtime_initialize_converts self sql msg Hinline Hsql)
             node m1 m2 Hparse Hprocess).
  split; [done|]. by apply after_run_cases.
Qed.

(** X21.  For a result whose node is not an ephemeral model, and for a task
    of a class derived from [CompileTask], [_handle_result] does what the
    inherited handler does and nothing more. *)
Theorem handle_result_as_inherited result self :
  (SqlNode.is_ephemeral_model (RunResult.node result) = false
   ∨ CompileTask.is_CompileTask
       (CompileTask.class (super_handle_result result self).2) = false) →
  handle result self = super_handle_result result self.
Proof.
  intros Hcase. rewrite _handle_result_run.
  destruct (super_handle_result result self) as [[[]|e] self1]; [|done].
  cbn in Hcase. destruct Hcase as [-> | ->]; [done|]. by rewrite andb_false_r.
Qed.

End CompileTaskMore.

Lemma base_after_run_keeps_node_keys {TG MT} adapter results :
  keeps_node_keys (base_after_run (TG := TG) (MT := MT) adapter results).
Proof. by intros self. Qed.

Lemma after_run_missing_node_witness :
  CompileTask.after_run base_after_run "adapter" [] stale_task =
  (Raise (KeyError "sql_operation.jaffle.inline_query"), stale_task).
Proof.
  apply (after_run_missing_node base_after_run "adapter" [] stale_task
           "sql_operation.jaffle.inline_query").
  - reflexivity.
  - discriminate.
  - apply lookup_empty.
Defined.

Lemma after_run_twice_witness :
  CompileTask._inline_node_id
    (CompileTask.after_run base_after_run "adapter" [] initialized_task).2 = None
  ∧ ("sql_operation.jaffle.inline_query" ∉
     dom (nodes (CompileTask.manifest
                   (CompileTask.after_run base_after_run "adapter" [] initialized_task).2)))
  ∧ CompileTask.after_run base_after_run "adapter" []
      (CompileTask.after_run base_after_run "adapter" [] initialized_task).2 =
    base_after_run "adapter" []
      (CompileTask.after_run base_after_run "adapter" [] initialized_task).2.
Proof.
  apply (after_run_twice base_after_run "adapter" [] initialized_task
           "sql_operation.jaffle.inline_query").
  - apply base_after_run_keeps_node_keys.
  - reflexivity.
  - discriminate.
  - apply elem_of_dom. eexists. vm_compute. reflexivity.
Defined.

Lemma runtime_initialize_compilation_error_witness :
  CompileTask._runtime_initialize example_parse_remote failing_process_node
    base_runtime_initialize inline_task =
  (Raise (DbtException "Error parsing inline query"),
   CompileTask.fire_event
     (ParseInlineNodeError "depends on a node named 'orders' which was not found"
        "sql/inline_query" "inline_query" "sqloperation.test.inline_query" "failed")
     (CompileTask.set_manifest
        (add_enabled empty_manifest (ExecutableNode (inline_node "inline_query")))
        inline_task)).
Proof.
  apply (proj2 (runtime_initialize_compilation_error example_parse_remote
                  failing_process_node base_runtime_initialize inline_task "select 1"
                  "depends on a node named 'orders' which was not found" eq_refl
                  ltac:(discriminate))
           (inline_node "inline_query")
           (add_enabled empty_manifest (ExecutableNode (inline_node "inline_query")))
           (add_enabled empty_manifest (ExecutableNode (inline_node "inline_query"))));
    reflexivity.
Defined.

Lemma failed_initialization_is_not_retracted_witness :
  CompileTask.manifest
    (CompileTask._runtime_initialize example_parse_remote failing_process_node
       base_runtime_initialize inline_task).2 =
    add_enabled empty_manifest (ExecutableNode (inline_node "inline_query"))
  ∧ CompileTask.after_run base_after_run "adapter" []
      (CompileTask._runtime_initialize example_parse_remote failing_process_node
         base_runtime_initialize inline_task).2 =
    base_after_run "adapter" []
      (CompileTask._runtime_initialize example_parse_remote failing_process_node
         base_runtime_initialize inline_task).2.
Proof.
  apply (failed_initialization_is_not_retracted example_parse_remote failing_process_node
           base_runtime_initialize base_after_run "adapter" [] inline_task "select 1"
           "depends on a node named 'orders' which was not found"
           (inline_node "inline_query")
           (add_enabled empty_manifest (ExecutableNode (inline_node "inline_query")))
           (add_enabled empty_manifest (ExecutableNode (inline_node "inline_query")))).
  - reflexivity.
  - reflexivity.
  - discriminate.
  - reflexivity.
  - reflexivity.
Defined.

Lemma handle_result_as_inherited_witness :
  CompileTask._handle_result base_handle_result ephemeral_result derived_task =
  base_handle_result ephemeral_result derived_task.
Proof.
  apply (handle_result_as_inherited base_handle_result ephemeral_result derived_task).
  right. reflexivity.
Defined.

(** ** The messages at the end of a task *)

Section TaskEndMessagesProps.
Context {Selection : Type}.
Variable name_in : string → Selection → bool.

#[local] Abbreviation node_name := (λ result, SqlNode.name (RunResult.node result)).
#[local] Abbreviation excluded_note :=
  (λ result : RunResult.t,
     Note ("Excluded node '" +:+ SqlNode.name (RunResult.node result) +:+ "' from results")).

Lemma selection_loop first results fired matched :
  fold_left
    (λ '(fired, matched_results) result,
       if name_in (SqlNode.name (RunResult.node result)) first
       then (fired, matched_results ++ [result])
       else (fired ++
             [Note ("Excluded node '" +:+ SqlNode.name (RunResult.node result) +:+
                    "' from results")],
             matched_results))
    results (fired, matched) =
  (fired ++ (excluded_note <$> List.filter (λ r, negb (name_in (node_name r) first)) results),
   matched ++ List.filter (λ r, name_in (node_name r) first) results).
Proof.
  revert fired matched. induction results as [|result results IH]; intros fired matched.
  - cbn. by rewrite !app_nil_r.
  - cbn [fold_left List.filter]. destruct (name_in _ first); cbn [negb]; rewrite IH.
    + by rewrite <- app_assoc.
    + cbn. by rewrite <- app_assoc.
Qed.

Lemma filter_split_length {A} (p : A → bool) (l : list A) :
  (length (List.filter (λ x, negb (p x)) l) + length (List.filter p l))%nat = length l.
Proof. induction l as [|x l IH]; [done|]. cbn. destruct (p x); cbn; lia. Qed.

(** X22.  With a selection and no inline query, every result is accounted
    for once: the excluded results, those whose node name is not in the first
    selection, give a note each, in order, and after these notes the matched
    results give a compiled-node event each, in order; there are as many
    events as results. *)
Theorem task_end_messages_selection args output first rest results :
  truthy_str (inline args) = false →
  task_end_messages name_in args output (Some (first :: rest)) results =
    (excluded_note <$> List.filter (λ r, negb (name_in (node_name r) first)) results) ++
    (compiled_event false (default "text" output) <$>
       List.filter (λ r, name_in (node_name r) first) results)
  ∧ length (task_end_messages name_in args output (Some (first :: rest)) results) =
    length results.
Proof.
  intros Hinline.
  assert (task_end_messages name_in args output (Some (first :: rest)) results =
            (excluded_note <$> List.filter (λ r, negb (name_in (node_name r) first)) results) ++
            (compiled_event false (default "text" output) <$>
               List.filter (λ r, name_in (node_name r) first) results)) as Heq.
  { unfold task_end_messages. rewrite Hinline. by rewrite selection_loop. }
  split; [done|].
  rewrite Heq, length_app, !length_fmap. apply filter_split_length.
Qed.

(** X23.  An inline query takes precedence over a selection: whatever the
    selection, the events are the compiled-node events, flagged inline, of
    the results whose node is named [inline_query], and no note is fired.
    With neither an inline query nor a selection nothing is fired. *)
Theorem task_end_messages_inline_first args output selection_arg results :
  (truthy_str (inline args) = true →
   task_end_messages name_in args output selection_arg results =
     compiled_event true (default "text" output) <$>
       List.filter (λ r, String.eqb (node_name r) "inline_query") results
   ∧ ∀ event, event ∈ task_end_messages name_in args output selection_arg results →
              ∃ compiled unique_id,
                event = CompiledNode "inline_query" compiled true (default "text" output)
                          unique_id)
  ∧ (truthy_str (inline args) = false → truthy_seq selection_arg = false →
     task_end_messages name_in args output selection_arg results = []).
Proof.
  split.
  - intros Hinline.
    assert (task_end_messages name_in args output selection_arg results =
              compiled_event true (default "text" output) <$>
                List.filter (λ r, String.eqb (node_name r) "inline_query") results) as Heq.
    { unfold task_end_messages. by rewrite Hinline. }
    split; [done|]. rewrite Heq.
    intros event (result & -> & Hin)%list_elem_of_fmap.
    apply list_elem_of_In, filter_In in Hin as [_ Hname]. apply String.eqb_eq in Hname.
    unfold compiled_event. rewrite Hname. by eexists _, _.
  - intros Hinline Hselection. unfold task_end_messages. rewrite Hinline.
    by destruct selection_arg as [[|first rest]|].
Qed.

End TaskEndMessagesProps.

Lemma task_end_messages_selection_witness :
  task_end_messages name_is select_args None (Some ["staging"])
    [failed_result; ephemeral_result] =
    ((λ result : RunResult.t,
        Note ("Excluded node '" +:+ SqlNode.name (RunResult.node result) +:+
              "' from results")) <$>
       List.filter (λ r, negb (name_is (SqlNode.name (RunResult.node r)) "staging"))
         [failed_result; ephemeral_result]) ++
    (compiled_event false (default "text" None) <$>
       List.filter (λ r, name_is (SqlNode.name (RunResult.node r)) "staging")
         [failed_result; ephemeral_result])
  ∧ length (task_end_messages name_is select_args None (Some ["staging"])
              [failed_result; ephemeral_result]) =
    length [failed_result; ephemeral_result].
Proof.
  apply (task_end_messages_selection name_is select_args None "staging" []
           [failed_result; ephemeral_result]).
  reflexivity.
Defined.

Lemma task_end_messages_inline_first_witness :
  task_end_messages name_is (CompileTask.args inline_task) None (Some ["staging"])
    [failed_result; ephemeral_result] =
    compiled_event true (default "text" None) <$>
      List.filter (λ r, String.eqb (SqlNode.name (RunResult.node r)) "inline_query")
        [failed_result; ephemeral_result]
  ∧ ∀ event,
      event ∈ task_end_messages name_is (CompileTask.args inline_task) None
                (Some ["staging"]) [failed_result; ephemeral_result] →
      ∃ compiled unique_id,
        event = CompiledNode "inline_query" compiled true (default "text" None) unique_id.
Proof.
  apply (proj1 (task_end_messages_inline_first name_is (CompileTask.args inline_task) None
                  (Some ["staging"]) [failed_result; ephemeral_result])).
  reflexivity.
Defined.
